(** * graphmodel: schema lookup and graph-object property resolution

    A shallow embedding of [src/graphSchema.ts] (classes [GraphSchema] and
    [GraphObject]) and [src/graphProperty.ts].

    Conventions.
    - A JavaScript value is an [any]; [undefined] is the "unset" sentinel.
      The numbers are the integers and [NaN]; [===] ([strict_eq]) is
      equality, except that [NaN] is not equal to anything, itself included.
    - Objects compared by identity (graphs, properties, categories) carry a
      [ref]; a [Map] or [Set] keyed by such objects compares the [ref]s.
    - A [Map] is an association list in insertion order, a [Set] a list in
      insertion order, as in ECMAScript.
    - Every mutating method returns its JavaScript result, the receiver
      after the call, and the events it raised, in raise order. *)

From Stdlib Require Import ZArith String List Bool.
From stdpp Require Import base list strings.
Import ListNotations.

Local Open Scope list_scope.

Set Warnings "-register-all".

(** ** Values *)

Inductive any : Type :=
| undefined
| num (n : Z)
| nan
| str (s : string)
| boolean (b : bool).

#[global] Instance any_eq_dec : EqDecision any.
Proof. solve_decision. Defined.

(** [a === b] *)
Definition strict_eq (a b : any) : bool :=
  match a, b with
  | nan, _ | _, nan => false
  | _, _ => bool_decide (a = b)
  end.

Definition is_undefined (a : any) : bool := strict_eq a undefined.

(** Identity of an object allocated by the program. *)
Definition ref := nat.

Definition GraphPropertyIdLike := string.
Definition GraphCategoryIdLike := string.
Definition GraphSchemaNameLike := string.

(** ** GraphMetadata

    The class is declared in [graphMetadata.ts]; the code under
    verification only reads the members below, which are taken as given.
    [hasOwn] and [get] are asked about a property, named by its identity. *)
Module GraphMetadata.
Record t : Type := mk {
  defaultValue : any;
  isImmutable : bool;
  isRemovable : bool;
  isSharable : bool;
  canValidate : bool;
  validate : any -> bool;
  hasOwn : ref -> bool;
  get : ref -> any
}.
End GraphMetadata.

(** ** GraphProperty ([graphProperty.ts])

    [getMetadata] and [createDefaultMetadata] are inherited from
    [GraphMetadataContainer]: the metadata cached for an owner, keyed by the
    owner's identity, and the ownerless metadata. That the entry for an
    owner is created on first request is not visible to a graph object,
    which only reads the entry. *)
Module DataType.
Record t : Type := mk { validate : any -> bool }.
End DataType.

Module GraphProperty.
Record t : Type := mk {
  ref_ : ref;
  id : GraphPropertyIdLike;
  dataType : option DataType.t;
  getMetadata : ref -> GraphMetadata.t;
  createDefaultMetadata : GraphMetadata.t
}.

(** [this._dataType?.validate(value) ?? true] *)
Definition _validate (this : t) (value : any) : bool :=
  match dataType this with
  | Some d => DataType.validate d value
  | None => true
  end.

(** Object identity. *)
Definition same (p q : t) : bool := Nat.eqb (ref_ p) (ref_ q).
End GraphProperty.

(** ** GraphCategory

    Declared in [graphCategory.ts]; a category has an id, at most one base
    category, and per-owner metadata. The [basedOn] chain is finite. *)
Module GraphCategory.
Inductive t : Type := mk {
  ref_ : ref;
  id : GraphCategoryIdLike;
  basedOn : option t;
  getMetadata : ref -> GraphMetadata.t
}.

Definition same (c d : t) : bool := Nat.eqb (ref_ c) (ref_ d).

(** The category followed by its ancestors, nearest first. *)
Fixpoint chain (c : t) : list t :=
  c :: match basedOn c with
       | Some b => chain b
       | None => []
       end.

(** Induction along the [basedOn] chain. *)
Fixpoint chain_ind (P : t -> Prop)
    (root : forall r i g, P (mk r i None g))
    (derived : forall r i b g, P b -> P (mk r i (Some b) g))
    (c : t) {struct c} : P c :=
  match c with
  | mk r i None g => root r i g
  | mk r i (Some b) g => derived r i b g (chain_ind P root derived b)
  end.
End GraphCategory.

(** ** Collections of a schema

    [GraphCategoryCollection] and [GraphPropertyCollection] are used through
    their [get(id)] method only. *)
Module GraphCategoryCollection.
Record t : Type := mk { get : GraphCategoryIdLike -> option GraphCategory.t }.
End GraphCategoryCollection.

Module GraphPropertyCollection.
Record t : Type := mk { get : GraphPropertyIdLike -> option GraphProperty.t }.
End GraphPropertyCollection.

(** ** GraphSchema *)
Module GraphSchema.
(** [_schemas] is iterated in child-registration order. *)
Inductive t : Type := mk {
  name : GraphSchemaNameLike;
  _schemas : option (list t);
  _categories : option GraphCategoryCollection.t;
  _properties : option GraphPropertyCollection.t
}.

(** [allSchemas()]: the generator's output, in yield order. *)
Fixpoint allSchemas (this : t) : list t :=
  this :: match _schemas this with
          | Some schemas => flat_map allSchemas schemas
          | None => []
          end.

(** The [for ... of this.allSchemas()] loop of [findCategory]. *)
Fixpoint findCategory_loop (id : GraphCategoryIdLike) (schemas : list t)
  : option GraphCategory.t :=
  match schemas with
  | [] => None
  | schema :: rest =>
      match _categories schema with
      | Some categories =>
          match GraphCategoryCollection.get categories id with
          | Some category => Some category
          | None => findCategory_loop id rest
          end
      | None => findCategory_loop id rest
      end
  end.

Definition findCategory (this : t) (id : GraphCategoryIdLike)
  : option GraphCategory.t :=
  findCategory_loop id (allSchemas this).

Fixpoint findProperty_loop (id : GraphPropertyIdLike) (schemas : list t)
  : option GraphProperty.t :=
  match schemas with
  | [] => None
  | schema :: rest =>
      match _properties schema with
      | Some properties =>
          match GraphPropertyCollection.get properties id with
          | Some property => Some property
          | None => findProperty_loop id rest
          end
      | None => findProperty_loop id rest
      end
  end.

Definition findProperty (this : t) (id : GraphPropertyIdLike)
  : option GraphProperty.t :=
  findProperty_loop id (allSchemas this).

(** The category a schema registers under [id] itself, if any. *)
Definition defines (s : t) (id : GraphCategoryIdLike) : option GraphCategory.t :=
  match _categories s with
  | Some categories => GraphCategoryCollection.get categories id
  | None => None
  end.

Definition children (s : t) : list t :=
  match _schemas s with Some l => l | None => [] end.

(** The lookup order in the words of the specification: the schema
    itself, then each child in registration order, each child searched
    completely (depth first) before the next one. *)
Fixpoint search (s : t) (id : GraphCategoryIdLike) : option GraphCategory.t :=
  match defines s id with
  | Some c => Some c
  | None =>
      match _schemas s with
      | Some l =>
          (fix search_children (l : list t) : option GraphCategory.t :=
             match l with
             | [] => None
             | child :: rest =>
                 match search child id with
                 | Some c => Some c
                 | None => search_children rest
                 end
             end) l
      | None => None
      end
  end.

Fixpoint search_children (id : GraphCategoryIdLike) (l : list t) : option GraphCategory.t :=
  match l with
  | [] => None
  | child :: rest =>
      match search child id with
      | Some c => Some c
      | None => search_children id rest
      end
  end.

(** Induction over the schema tree. *)
Fixpoint schema_ind (P : t -> Prop)
    (step : forall s, Forall P (children s) -> P s) (s : t) {struct s} : P s :=
  step s
    (match s return Forall P (children s) with
     | mk _ schemas _ _ =>
         match schemas return Forall P (match schemas with Some l => l | None => [] end) with
         | Some l =>
             (fix all (l : list t) : Forall P l :=
                match l with
                | [] => @List.Forall_nil _ P
                | x :: rest => @List.Forall_cons _ P x rest (schema_ind P step x) (all rest)
                end) l
         | None => @List.Forall_nil _ P
         end
     end).

(** The property a schema registers under [id] itself, if any. *)
Definition definesProperty (s : t) (id : GraphPropertyIdLike) : option GraphProperty.t :=
  match _properties s with
  | Some properties => GraphPropertyCollection.get properties id
  | None => None
  end.

(** Self first, then the children in registration order, depth first. *)
Fixpoint searchProperty (s : t) (id : GraphPropertyIdLike) : option GraphProperty.t :=
  match definesProperty s id with
  | Some p => Some p
  | None =>
      match _schemas s with
      | Some l =>
          (fix searchProperty_children (l : list t) : option GraphProperty.t :=
             match l with
             | [] => None
             | child :: rest =>
                 match searchProperty child id with
                 | Some p => Some p
                 | None => searchProperty_children rest
                 end
             end) l
      | None => None
      end
  end.

Fixpoint searchProperty_children (id : GraphPropertyIdLike) (l : list t)
  : option GraphProperty.t :=
  match l with
  | [] => None
  | child :: rest =>
      match searchProperty child id with
      | Some p => Some p
      | None => searchProperty_children id rest
      end
  end.

(** [hasSchema(schema)]. The argument is a name or a schema; schemas carry
    no identity of their own here, so [schema === this] is the parameter
    [same]. *)
Section HasSchema.
Variable same : t -> t -> bool.

(** [isGraphSchemaNameLIke(schema) ? schema === this.name : schema === this] *)
Definition matches (schema : GraphSchemaNameLike + t) (this : t) : bool :=
  match schema with
  | inl n => String.eqb n (name this)
  | inr x => same x this
  end.

Fixpoint hasSchema (this : t) (schema : GraphSchemaNameLike + t) : bool :=
  if matches schema this then true
  else
    match _schemas this with
    | Some schemas => existsb (fun value => hasSchema value schema) schemas
    | None => false
    end.
End HasSchema.
End GraphSchema.

(** ** Graph

    Declared in [graph.ts]. A graph object reads its owner's [schema] and
    calls its [_importMetadata(other, container)], whose result for a
    property may be absent; the other graph is named by its identity. *)
Module Graph.
Record t : Type := mk {
  ref_ : ref;
  schema : GraphSchema.t;
  _importMetadata : option ref -> GraphProperty.t -> option GraphMetadata.t
}.
End Graph.

(** ** [Map<GraphProperty, any>] *)
Module PropertyMap.
Definition t : Type := list (GraphProperty.t * any).

Fixpoint get (m : t) (key : GraphProperty.t) : any :=
  match m with
  | [] => undefined
  | (k, v) :: rest => if GraphProperty.same k key then v else get rest key
  end.

Fixpoint has (m : t) (key : GraphProperty.t) : bool :=
  match m with
  | [] => false
  | (k, _) :: rest => GraphProperty.same k key || has rest key
  end.

(** An existing key keeps its place, a new key goes last. *)
Fixpoint set (m : t) (key : GraphProperty.t) (value : any) : t :=
  match m with
  | [] => [(key, value)]
  | (k, v) :: rest =>
      if GraphProperty.same k key then (k, value) :: rest
      else (k, v) :: set rest key value
  end.

Fixpoint delete (m : t) (key : GraphProperty.t) : t :=
  match m with
  | [] => []
  | (k, v) :: rest =>
      if GraphProperty.same k key then rest else (k, v) :: delete rest key
  end.

Definition size (m : t) : nat := length m.

Definition keys (m : t) : list ref := map (fun e => GraphProperty.ref_ (fst e)) m.

(** Keys are pairwise distinct objects. *)
Definition wf (m : t) : Prop := NoDup (keys m).

(** No entry holds the unset sentinel. *)
Definition no_undefined (m : t) : Prop := Forall (fun e => snd e <> undefined) m.

(** No entry holds [NaN]. *)
Definition no_nan (m : t) : Prop := Forall (fun e => snd e <> nan) m.
End PropertyMap.

(** ** [Set<GraphCategory>] *)
Module CategorySet.
Definition t : Type := list GraphCategory.t.

Fixpoint has (s : t) (c : GraphCategory.t) : bool :=
  match s with
  | [] => false
  | d :: rest => GraphCategory.same d c || has rest c
  end.

Definition add (s : t) (c : GraphCategory.t) : t :=
  if has s c then s else s ++ [c].

Fixpoint delete (s : t) (c : GraphCategory.t) : t :=
  match s with
  | [] => []
  | d :: rest => if GraphCategory.same d c then rest else d :: delete rest c
  end.

Definition size (s : t) : nat := length s.

(** The set is a [Set]: its members are pairwise distinct objects. *)
Definition wf (s : t) : Prop := NoDup (map GraphCategory.ref_ s).
End CategorySet.

(** ** GraphObject *)
Module GraphObject.
Inductive Change : Type := ChangeAdd | ChangeDelete.

(** A call of [_raiseOnCategoryChanged] or [_raiseOnPropertyChanged], with
    the arguments handed to the handlers. *)
Inductive Event : Type :=
| CategoryChanged (change : Change) (category : GraphCategory.t)
| PropertyChanged (name : GraphPropertyIdLike).

(** [GraphObjectEvents]: which handlers a subscriber supplied. *)
Record GraphObjectEvents : Type := mkEvents {
  onCategoryChanged : bool;
  onPropertyChanged : bool
}.

Record t : Type := mk {
  _owner : option Graph.t;
  _categories : option CategorySet.t;
  _properties : option PropertyMap.t;
  _observers : option (list (ref * GraphObjectEvents))
}.

Definition with_owner (this : t) (owner : option Graph.t) : t :=
  mk owner (_categories this) (_properties this) (_observers this).
Definition with_categories (this : t) (categories : option CategorySet.t) : t :=
  mk (_owner this) categories (_properties this) (_observers this).
Definition with_properties (this : t) (properties : option PropertyMap.t) : t :=
  mk (_owner this) (_categories this) properties (_observers this).
Definition with_observers (this : t) (observers : option (list (ref * GraphObjectEvents))) : t :=
  mk (_owner this) (_categories this) (_properties this) observers.

(** A key or category argument is an id or the object itself. *)
Definition PropertyKey : Type := GraphPropertyIdLike + GraphProperty.t.
Definition CategoryKey : Type := GraphCategoryIdLike + GraphCategory.t.

Definition _raiseOnCategoryChanged (change : Change) (category : GraphCategory.t)
  : list Event := [CategoryChanged change category].

Definition _raiseOnPropertyChanged (property : GraphProperty.t)
  : list Event := [PropertyChanged (GraphProperty.id property)].

(** The handlers an event reaches: every subscriber that supplied the
    matching handler, in subscription order. *)
Definition listens (ev : Event) (events : GraphObjectEvents) : bool :=
  match ev with
  | CategoryChanged _ _ => onCategoryChanged events
  | PropertyChanged _ => onPropertyChanged events
  end.

Definition deliver (this : t) (ev : Event) : list (ref * Event) :=
  match _observers this with
  | Some observers =>
      map (fun o => (fst o, ev)) (List.filter (fun o => listens ev (snd o)) observers)
  | None => []
  end.

(** [subscribe(events)]; [subscription] is the fresh handle. *)
Definition subscribe (this : t) (subscription : ref) (events : GraphObjectEvents) : t :=
  let observers := match _observers this with Some o => o | None => [] end in
  with_observers this (Some (observers ++ [(subscription, events)])).

Definition owner (this : t) : option Graph.t := _owner this.

(** [this._owner?.schema] *)
Definition schema (this : t) : option GraphSchema.t :=
  match _owner this with
  | Some g => Some (Graph.schema g)
  | None => None
  end.

Definition categoryCount (this : t) : nat :=
  match _categories this with Some s => CategorySet.size s | None => 0%nat end.

Definition propertyCount (this : t) : nat :=
  match _properties this with Some m => PropertyMap.size m | None => 0%nat end.

(** [isGraphPropertyIdLIke(key) ? this.schema?.findProperty(key) : key] *)
Definition resolveProperty (this : t) (key : PropertyKey) : option GraphProperty.t :=
  match key with
  | inl id =>
      match schema this with
      | Some s => GraphSchema.findProperty s id
      | None => None
      end
  | inr property => Some property
  end.

(** [isGraphCategoryIdLike(category) ? this.schema?.findCategory(category) : category] *)
Definition resolveCategory (this : t) (category : CategoryKey) : option GraphCategory.t :=
  match category with
  | inl id =>
      match schema this with
      | Some s => GraphSchema.findCategory s id
      | None => None
      end
  | inr c => Some c
  end.

Definition addCategory (this : t) (category : GraphCategory.t) : t * list Event :=
  let categories := match _categories this with Some s => s | None => [] end in
  if negb (CategorySet.has categories category) then
    (with_categories this (Some (categories ++ [category])),
     _raiseOnCategoryChanged ChangeAdd category)
  else (with_categories this (Some categories), []).

(** [constructor(owner?, category?)]; nobody has subscribed yet. *)
Definition constructor (owner : option Graph.t) (category : option GraphCategory.t) : t :=
  let this := mk owner None None None in
  match category with
  | Some c => fst (addCategory this c)
  | None => this
  end.

(** What [deleteCategory] returns. *)
Inductive DeleteCategoryResult : Type :=
| ReturnsUndefined
| ReturnsBoolean (b : bool)
| ReturnsCategory (c : GraphCategory.t).

Definition deleteCategory (this : t) (category : CategoryKey)
  : DeleteCategoryResult * t * list Event :=
  match resolveCategory this category with
  | None => (ReturnsUndefined, this, [])
  | Some categoryObj =>
      match _categories this with
      | Some categories =>
          if CategorySet.has categories categoryObj then
            (match category with
             | inl _ => ReturnsCategory categoryObj
             | inr _ => ReturnsBoolean true
             end,
             with_categories this (Some (CategorySet.delete categories categoryObj)),
             _raiseOnCategoryChanged ChangeDelete categoryObj)
          else (ReturnsBoolean false, this, [])
      | None => (ReturnsBoolean false, this, [])
      end
  end.

(** The [while (category !== undefined)] loop of [_find]. *)
Fixpoint _find_chain (owner : Graph.t) (property : GraphProperty.t)
    (category : GraphCategory.t) : option GraphMetadata.t :=
  let metadata := GraphCategory.getMetadata category (Graph.ref_ owner) in
  if GraphMetadata.hasOwn metadata (GraphProperty.ref_ property) then Some metadata
  else match GraphCategory.basedOn category with
       | Some base => _find_chain owner property base
       | None => None
       end.

(** The [for (category of this._categories)] loop of [_find]. *)
Fixpoint _find_loop (owner : Graph.t) (property : GraphProperty.t)
    (categories : list GraphCategory.t) : option GraphMetadata.t :=
  match categories with
  | [] => None
  | category :: rest =>
      match _find_chain owner property category with
      | Some metadata => Some metadata
      | None => _find_loop owner property rest
      end
  end.

Definition _find (this : t) (property : GraphProperty.t) : option GraphMetadata.t :=
  match _categories this, _owner this with
  | Some categories, Some owner => _find_loop owner property categories
  | _, _ => None
  end.

Definition hasOwn (this : t) (property : PropertyKey) : bool :=
  match resolveProperty this property with
  | None => false
  | Some propertyObj =>
      match _properties this with
      | Some m => PropertyMap.has m propertyObj
      | None => false
      end
  end.

Definition has (this : t) (key : PropertyKey) : bool :=
  match resolveProperty this key with
  | None => false
  | Some propertyObj =>
      hasOwn this (inr propertyObj)
      || match _find this propertyObj with Some _ => true | None => false end
  end.

Definition get (this : t) (key : PropertyKey) : any :=
  match resolveProperty this key with
  | None => undefined
  | Some propertyObj =>
      let value :=
        match _properties this with
        | Some m => PropertyMap.get m propertyObj
        | None => undefined
        end in
      let value :=
        if is_undefined value then
          match _find this propertyObj with
          | Some metadata => GraphMetadata.get metadata (GraphProperty.ref_ propertyObj)
          | None => undefined
          end
        else value in
      match is_undefined value, _owner this with
      | true, Some owner =>
          GraphMetadata.defaultValue
            (GraphProperty.getMetadata propertyObj (Graph.ref_ owner))
      | _, _ => value
      end
  end.

(** [this._owner ? property.getMetadata(this._owner) : property.createDefaultMetadata()] *)
Definition resolveMetadata (this : t) (property : GraphProperty.t) : GraphMetadata.t :=
  match _owner this with
  | Some owner => GraphProperty.getMetadata property (Graph.ref_ owner)
  | None => GraphProperty.createDefaultMetadata property
  end.

Definition delete (this : t) (key : PropertyKey) : bool * t * list Event :=
  match resolveProperty this key with
  | None => (false, this, [])
  | Some property =>
      match _properties this with
      | None => (false, this, [])
      | Some properties =>
          if negb (PropertyMap.has properties property) then (false, this, [])
          else
            let metadata := resolveMetadata this property in
            if negb (GraphMetadata.isRemovable metadata) then (false, this, [])
            else
              (true,
               with_properties this (Some (PropertyMap.delete properties property)),
               _raiseOnPropertyChanged property)
      end
  end.

(** [set] returns the receiver. *)
Definition set (this : t) (key : PropertyKey) (value : any) : t * list Event :=
  if is_undefined value then
    let '(_, this', raised) := delete this key in (this', raised)
  else
    match resolveProperty this key with
    | None => (this, [])
    | Some propertyObj =>
        let properties := match _properties this with Some m => m | None => [] end in
        let this' := with_properties this (Some properties) in
        let ownValue := PropertyMap.get properties propertyObj in
        if strict_eq value ownValue then (this', [])
        else
          let metadata := resolveMetadata this propertyObj in
          if negb (is_undefined ownValue) && GraphMetadata.isImmutable metadata
          then (this', [])
          else if GraphMetadata.canValidate metadata
                  && negb (GraphMetadata.validate metadata value)
          then (this', [])
          else
            (with_properties this (Some (PropertyMap.set properties propertyObj value)),
             _raiseOnPropertyChanged propertyObj)
    end.

(** One turn of the [for (const category of other._categories)] loop of
    [copyCategories]; the state is the receiver's set, the events raised
    so far and [changed]. The owner's [_importMetadata] is called for its
    effect on the graph, its result is dropped. *)
Definition copyCategories_step (acc : CategorySet.t * list Event * bool)
    (category : GraphCategory.t) : CategorySet.t * list Event * bool :=
  let '(categories, raised, changed) := acc in
  if negb (CategorySet.has categories category) then
    (categories ++ [category],
     raised ++ _raiseOnCategoryChanged ChangeAdd category,
     true)
  else acc.

Definition copyCategories (this other : t) : bool * t * list Event :=
  match _categories other with
  | None => (false, this, [])
  | Some theirs =>
      if Nat.eqb (CategorySet.size theirs) 0 then (false, this, [])
      else
        let mine := match _categories this with Some s => s | None => [] end in
        let '(categories, raised, changed) :=
          fold_left copyCategories_step theirs (mine, [], false) in
        (changed, with_categories this (Some categories), raised)
  end.

(** [this._owner?._importMetadata(other._owner, property)] *)
Definition importMetadata (this other : t) (property : GraphProperty.t)
  : option GraphMetadata.t :=
  match _owner this with
  | Some g =>
      Graph._importMetadata g
        (match _owner other with Some h => Some (Graph.ref_ h) | None => None end)
        property
  | None => None
  end.

(** The three [continue]s under [if (metadata)] in [copyProperties]. *)
Definition copy_refused (metadata : option GraphMetadata.t) (ownValue value : any) : bool :=
  match metadata with
  | Some metadata =>
      negb (GraphMetadata.isSharable metadata)
      || (GraphMetadata.isImmutable metadata && negb (is_undefined ownValue))
      || (GraphMetadata.canValidate metadata
          && negb (GraphMetadata.validate metadata value))
  | None => false
  end.

(** One turn of the [for (const [property, value] of other._properties)]
    loop of [copyProperties]. *)
Definition copyProperties_step (this other : t)
    (acc : PropertyMap.t * list Event * bool) (entry : GraphProperty.t * any)
  : PropertyMap.t * list Event * bool :=
  let '(properties, raised, changed) := acc in
  let '(property, value) := entry in
  let ownValue := PropertyMap.get properties property in
  if strict_eq ownValue value then acc
  else if copy_refused (importMetadata this other property) ownValue value then acc
  else
    (PropertyMap.set properties property value,
     raised ++ _raiseOnPropertyChanged property,
     true).

Definition copyProperties (this other : t) : bool * t * list Event :=
  match _properties other with
  | None => (false, this, [])
  | Some theirs =>
      if Nat.eqb (PropertyMap.size theirs) 0 then (false, this, [])
      else
        let mine := match _properties this with Some m => m | None => [] end in
        let '(properties, raised, changed) :=
          fold_left (copyProperties_step this other) theirs (mine, [], false) in
        (changed, with_properties this (Some properties), raised)
  end.

Definition keys (this : t) : list GraphProperty.t :=
  match _properties this with Some m => map fst m | None => [] end.

Definition values (this : t) : list any :=
  match _properties this with Some m => map snd m | None => [] end.

Definition entries (this : t) : list (GraphProperty.t * any) :=
  match _properties this with Some m => m | None => [] end.

Definition categories (this : t) : list GraphCategory.t :=
  match _categories this with Some s => s | None => [] end.

(** [if (owner !== undefined && this._owner === undefined)] *)
Definition _setOwner (this : t) (owner : option Graph.t) : t :=
  match owner, _owner this with
  | Some g, None => with_owner this (Some g)
  | _, _ => this
  end.

Definition _mergeFrom (this other : t) : bool * t * list Event :=
  let '(changed1, this1, raised1) := copyProperties this other in
  let '(changed2, this2, raised2) := copyCategories this1 other in
  (changed1 || changed2, this2, raised1 ++ raised2).

(** *** Notions used to state the properties *)

(** The value stored for a property, [undefined] when there is none. *)
Definition ownValue (this : t) (property : GraphProperty.t) : any :=
  PropertyMap.get (entries this) property.

(** The state as the methods see it: a collection that was never allocated
    and an empty one are read alike by every method. *)
Definition same_state (a b : t) : Prop :=
  _owner a = _owner b
  /\ categories a = categories b
  /\ entries a = entries b
  /\ _observers a = _observers b.

(** The map is a [Map]: one entry per key. *)
Definition wf (this : t) : Prop := PropertyMap.wf (entries this).

(** No stored value is the unset sentinel. *)
Definition no_undefined (this : t) : Prop := PropertyMap.no_undefined (entries this).

(** No stored value is [NaN]. *)
Definition no_nan (this : t) : Prop := PropertyMap.no_nan (entries this).

(** The category's metadata for that owner explicitly owns the property. *)
Definition owns (owner : Graph.t) (property : GraphProperty.t) (category : GraphCategory.t)
  : bool :=
  GraphMetadata.hasOwn (GraphCategory.getMetadata category (Graph.ref_ owner))
    (GraphProperty.ref_ property).

(** In the words of the specification: the first category, searching the
    object's own category set, each walked up its [basedOn] chain, whose
    per-owner metadata explicitly owns the property. *)
Definition firstOwning (this : t) (property : GraphProperty.t) : option GraphCategory.t :=
  match _owner this with
  | Some owner =>
      find (owns owner property) (flat_map GraphCategory.chain (categories this))
  | None => None
  end.

(** The two silent refusals of [set]: a value is present and the metadata
    says immutable, or the metadata has a validator that rejects the value. *)
Definition set_refused (this : t) (property : GraphProperty.t) (value : any) : bool :=
  let metadata := resolveMetadata this property in
  (negb (is_undefined (ownValue this property)) && GraphMetadata.isImmutable metadata)
  || (GraphMetadata.canValidate metadata && negb (GraphMetadata.validate metadata value)).

(** [copyProperties] writes this entry of [other] into the receiver: the
    receiver's value differs and the imported metadata does not refuse. *)
Definition copy_writes (this other : t) (entry : GraphProperty.t * any) : bool :=
  negb (strict_eq (ownValue this (fst entry)) (snd entry))
  && negb (copy_refused (importMetadata this other (fst entry))
             (ownValue this (fst entry)) (snd entry)).

(** [copy_writes], against the map as the loop has it so far. *)
Definition writes_in (this other : t) (properties : PropertyMap.t)
    (entry : GraphProperty.t * any) : bool :=
  negb (strict_eq (PropertyMap.get properties (fst entry)) (snd entry))
  && negb (copy_refused (importMetadata this other (fst entry))
             (PropertyMap.get properties (fst entry)) (snd entry)).

(** The event raised for a written entry. *)
Definition raise_for (entry : GraphProperty.t * any) : Event :=
  PropertyChanged (GraphProperty.id (fst entry)).

(** [copyProperties] would write nothing of [X] into [Y]. *)
Definition settled_for (Y X : t) : Prop :=
  forall e, In e (entries X) -> copy_writes Y X e = false.

(** [subscription.unsubscribe()]: [observers.delete(subscription)]. *)
Definition unsubscribe (this : t) (subscription : ref) : t :=
  match _observers this with
  | Some observers =>
      with_observers this
        (Some (List.filter (fun o => negb (Nat.eqb (fst o) subscription)) observers))
  | None => this
  end.

(** The handles of the current subscribers. *)
Definition subscriptions (this : t) : list ref :=
  match _observers this with
  | Some observers => map fst observers
  | None => []
  end.

(** What a sequence of raised events delivers, handler call by handler call. *)
Definition deliver_all (this : t) (raised : list Event) : list (ref * Event) :=
  flat_map (deliver this) raised.

(** Both collections hold each object once. *)
Definition distinct (this : t) : Prop :=
  CategorySet.wf (categories this) /\ PropertyMap.wf (entries this).

(** The value the category step of [get] contributes. *)
Definition inheritedValue (this : t) (property : GraphProperty.t) : any :=
  match _find this property with
  | Some metadata => GraphMetadata.get metadata (GraphProperty.ref_ property)
  | None => undefined
  end.
End GraphObject.

(** ** Programs over several graph objects

    Objects live in a store and are named by their index, so that one
    object can be the receiver and the argument of a call, and a sequence
    of calls on several objects can be run. Every event carries the index
    of the object that raised it. *)
Module Program.
Definition Store : Type := list GraphObject.t.

Inductive Call : Type :=
| New (owner : option Graph.t) (category : option GraphCategory.t)
| Subscribe (o : nat) (subscription : ref) (events : GraphObject.GraphObjectEvents)
| AddCategory (o : nat) (category : GraphCategory.t)
| DeleteCategory (o : nat) (category : GraphObject.CategoryKey)
| Set_ (o : nat) (key : GraphObject.PropertyKey) (value : any)
| Delete (o : nat) (key : GraphObject.PropertyKey)
| CopyCategories (o other : nat)
| CopyProperties (o other : nat)
| MergeFrom (o other : nat)
| SetOwner (o : nat) (owner : option Graph.t).

Definition State : Type := Store * list (nat * GraphObject.Event).

(** Write back the receiver and log what it raised. *)
Definition commit (st : State) (o : nat) (r : GraphObject.t * list GraphObject.Event) : State :=
  (<[o := fst r]> (fst st), snd st ++ map (fun ev => (o, ev)) (snd r)).

Definition drop_result {A} (r : A * GraphObject.t * list GraphObject.Event)
  : GraphObject.t * list GraphObject.Event :=
  (snd (fst r), snd r).

Definition call2 (st : State) (o other : nat)
    (f : GraphObject.t -> GraphObject.t -> bool * GraphObject.t * list GraphObject.Event)
  : State :=
  match fst st !! o, fst st !! other with
  | Some this, Some that => commit st o (drop_result (f this that))
  | _, _ => st
  end.

Definition step (st : State) (c : Call) : State :=
  match c with
  | New owner category => (fst st ++ [GraphObject.constructor owner category], snd st)
  | Subscribe o subscription events =>
      match fst st !! o with
      | Some this => commit st o (GraphObject.subscribe this subscription events, [])
      | None => st
      end
  | AddCategory o category =>
      match fst st !! o with
      | Some this => commit st o (GraphObject.addCategory this category)
      | None => st
      end
  | DeleteCategory o category =>
      match fst st !! o with
      | Some this => commit st o (drop_result (GraphObject.deleteCategory this category))
      | None => st
      end
  | Set_ o key value =>
      match fst st !! o with
      | Some this => commit st o (GraphObject.set this key value)
      | None => st
      end
  | Delete o key =>
      match fst st !! o with
      | Some this => commit st o (drop_result (GraphObject.delete this key))
      | None => st
      end
  | CopyCategories o other => call2 st o other GraphObject.copyCategories
  | CopyProperties o other => call2 st o other GraphObject.copyProperties
  | MergeFrom o other =>
      call2 (call2 st o other GraphObject.copyProperties) o other GraphObject.copyCategories
  | SetOwner o owner =>
      match fst st !! o with
      | Some this => commit st o (GraphObject._setOwner this owner, [])
      | None => st
      end
  end.

Definition run (st : State) (calls : list Call) : State := fold_left step calls st.

Definition initial : State := ([], []).

(** Object [o] exists and its owner is [g]. *)
Definition owned_by (o : nat) (g : Graph.t) (st : State) : Prop :=
  exists obj, fst st !! o = Some obj /\ GraphObject._owner obj = Some g.

(** No object of the store holds [undefined] for a property. *)
Definition all_defined (st : State) : Prop :=
  Forall GraphObject.no_undefined (fst st).

(** No object of the store holds a category or a property twice. *)
Definition all_distinct (st : State) : Prop :=
  Forall GraphObject.distinct (fst st).
End Program.

(** ** Concrete schemas and objects *)
Module Examples.
(** Metadata with no default, mutable, removable, sharable, no validator,
    owning no property. *)
Definition plainMetadata : GraphMetadata.t :=
  GraphMetadata.mk undefined false true true false (fun _ => true)
    (fun _ => false) (fun _ => undefined).

Definition category (r : ref) (id : GraphCategoryIdLike) (base : option GraphCategory.t)
  : GraphCategory.t :=
  GraphCategory.mk r id base (fun _ => plainMetadata).

Definition rootShape : GraphCategory.t := category 1 "shape" None.
Definition childShape : GraphCategory.t := category 2 "shape" None.
Definition deepLeaf : GraphCategory.t := category 3 "leaf" None.
Definition lateLeaf : GraphCategory.t := category 4 "leaf" None.

Definition only (id : GraphCategoryIdLike) (c : GraphCategory.t)
  : option GraphCategoryCollection.t :=
  Some (GraphCategoryCollection.mk (fun i => if String.eqb i id then Some c else None)).

(** root { shape }
      first  { shape }  -- deep { leaf }
      second { leaf } *)
Definition deepSchema : GraphSchema.t :=
  GraphSchema.mk "deep" None (only "leaf" deepLeaf) None.
Definition firstSchema : GraphSchema.t :=
  GraphSchema.mk "first" (Some [deepSchema]) (only "shape" childShape) None.
Definition secondSchema : GraphSchema.t :=
  GraphSchema.mk "second" None (only "leaf" lateLeaf) None.
Definition rootSchema : GraphSchema.t :=
  GraphSchema.mk "root" (Some [firstSchema; secondSchema]) (only "shape" rootShape) None.

(** A property whose default is 0, removable, for every owner and for none. *)
Definition zeroDefault : GraphMetadata.t :=
  GraphMetadata.mk (num 0) false true true false (fun _ => true)
    (fun _ => false) (fun _ => undefined).

Definition count : GraphProperty.t :=
  GraphProperty.mk 10 "count" None (fun _ => zeroDefault) zeroDefault.

(** An object with no owner, no category and no value. *)
Definition detached : GraphObject.t := GraphObject.constructor None None.

(** A graph over [rootSchema] whose [_importMetadata] answers with the
    graph's own metadata entry for the definition. *)
Definition graph (r : ref) : Graph.t :=
  Graph.mk r rootSchema (fun _ p => Some (GraphProperty.getMetadata p r)).

(** Category [derived] is based on [base]; the metadata of [base] owns
    [count] with value 7. *)
Definition ownsCount : GraphMetadata.t :=
  GraphMetadata.mk undefined false true true false (fun _ => true)
    (fun r => Nat.eqb r 10) (fun r => if Nat.eqb r 10 then num 7 else undefined).

Definition base : GraphCategory.t := GraphCategory.mk 21 "base" None (fun _ => ownsCount).
Definition derived : GraphCategory.t := category 20 "derived" (Some base).

(** [detached] after [set(count, 5)]. *)
Definition holdsFive : GraphObject.t :=
  fst (GraphObject.set detached (inr count) (num 5)).

(** A property that is immutable, not removable, and whose validator
    rejects every value; and an object already holding a value for it. *)
Definition lockedMetadata : GraphMetadata.t :=
  GraphMetadata.mk undefined true false true true (fun _ => false)
    (fun _ => false) (fun _ => undefined).

Definition locked : GraphProperty.t :=
  GraphProperty.mk 11 "locked" None (fun _ => lockedMetadata) lockedMetadata.

Definition holdsLocked : GraphObject.t :=
  GraphObject.mk None None (Some [(locked, num 1)]) None.

(** [detached] after [set(count, NaN)]; and an object of graph 1 that
    holds [NaN] for [count] too. *)
Definition holdsNaN : GraphObject.t :=
  fst (GraphObject.set detached (inr count) nan).


(** An immutable, sharable property; [source], owned by graph 1, holds 3
    for it and 3 for [count]; [target], owned by graph 2, holds 9 for it. *)
Definition frozenMetadata : GraphMetadata.t :=
  GraphMetadata.mk undefined true true true false (fun _ => true)
    (fun _ => false) (fun _ => undefined).

Definition fixed : GraphProperty.t :=
  GraphProperty.mk 12 "fixed" None (fun _ => frozenMetadata) frozenMetadata.

Definition source : GraphObject.t :=
  GraphObject.mk (Some (graph 1)) None (Some [(fixed, num 3); (count, num 3)]) None.

Definition target : GraphObject.t :=
  GraphObject.mk (Some (graph 2)) None (Some [(fixed, num 9)]) None.

Definition owned : GraphObject.t := GraphObject.constructor (Some (graph 100)) (Some derived).
Definition ownedPlain : GraphObject.t := GraphObject.constructor (Some (graph 100)) None.
End Examples.

(** * Facts *)

(** ** Strict equality *)

Lemma strict_eq_true a b : strict_eq a b = true <-> a = b /\ a <> nan.
Proof.
  unfold strict_eq. split.
  - destruct a, b; try discriminate; intros H%bool_decide_eq_true; by split.
  - intros [<- Ha]. destruct a; try (by apply bool_decide_eq_true). by destruct Ha.
Qed.

Lemma strict_eq_false a b : strict_eq a b = false <-> a <> b \/ b = nan.
Proof.
  unfold strict_eq. split.
  - destruct a, b; try (by right); try (by left);
      intros H%bool_decide_eq_false; by left.
  - intros [H| ->]; [|by destruct a].
    destruct a, b; try reflexivity; by apply bool_decide_eq_false.
Qed.

Lemma strict_eq_eq a b : strict_eq a b = true -> a = b.
Proof. by intros [H _]%strict_eq_true. Qed.

Lemma strict_eq_neq a b : a <> b -> strict_eq a b = false.
Proof. intros H. apply strict_eq_false. by left. Qed.

Lemma strict_eq_refl a : a <> nan -> strict_eq a a = true.
Proof. intros H. by apply strict_eq_true. Qed.

Lemma strict_eq_nan a : strict_eq a nan = false /\ strict_eq nan a = false.
Proof. by destruct a. Qed.

Lemma is_undefined_true a : is_undefined a = true <-> a = undefined.
Proof.
  unfold is_undefined. rewrite strict_eq_true. split; [tauto|].
  by intros ->.
Qed.

Lemma is_undefined_false a : is_undefined a = false <-> a <> undefined.
Proof.
  unfold is_undefined. rewrite strict_eq_false. split; [|tauto].
  by intros [H|[=]].
Qed.

(** ** Events and subscribers *)
Module EventFacts.
Import GraphObject.

(** A raised event reaches exactly the subscribers that supplied the
    matching handler, with the arguments of the raise. *)
Lemma deliver_listening o ev s ev' :
  In (s, ev') (deliver o ev) <->
  ev' = ev
  /\ exists observers events,
       _observers o = Some observers
       /\ In (s, events) observers
       /\ listens ev events = true.
Proof.
  unfold deliver. destruct (_observers o) as [observers|].
  - rewrite in_map_iff. split.
    + intros ([s0 events] & [= <- <-] & Hin%filter_In). simpl in Hin.
      split; [reflexivity|]. exists observers, events. tauto.
    + intros (-> & observers' & events & [= <-] & Hin & Hl).
      exists (s, events). split; [reflexivity|]. apply filter_In. by split.
  - split; [intros []|]. by intros (_ & ? & ? & [=] & _).
Qed.

Lemma deliver_property_changed o P s events observers :
  _observers o = Some observers ->
  In (s, events) observers ->
  onPropertyChanged events = true ->
  In (s, PropertyChanged (GraphProperty.id P))
     (flat_map (deliver o) (_raiseOnPropertyChanged P)).
Proof.
  intros Ho Hin Hl. simpl. rewrite app_nil_r.
  apply deliver_listening. split; [reflexivity|].
  exists observers, events. by repeat split.
Qed.
End EventFacts.

(** ** Schema lookup *)
Module SchemaLookup.
Import GraphSchema.

Lemma search_unfold s id :
  search s id =
  match defines s id with
  | Some c => Some c
  | None => search_children id (children s)
  end.
Proof.
  destruct s as [n schemas cats props]; simpl.
  destruct (defines _ id); [reflexivity|].
  unfold children; simpl.
  destruct schemas as [l|]; [|reflexivity].
  induction l as [|child rest IH]; simpl; [reflexivity|].
  destruct (search child id); [reflexivity|exact IH].
Qed.

Lemma allSchemas_unfold s :
  allSchemas s = s :: flat_map allSchemas (children s).
Proof. destruct s as [n [l|] cats props]; reflexivity. Qed.

Lemma loop_cons id s rest :
  findCategory_loop id (s :: rest) =
  match defines s id with
  | Some c => Some c
  | None => findCategory_loop id rest
  end.
Proof. unfold defines; simpl. destruct (_categories s); reflexivity. Qed.

Lemma loop_app id l1 l2 :
  findCategory_loop id (l1 ++ l2) =
  match findCategory_loop id l1 with
  | Some c => Some c
  | None => findCategory_loop id l2
  end.
Proof.
  induction l1 as [|s l1 IH]; [reflexivity|].
  rewrite <- app_comm_cons, !loop_cons.
  destruct (defines s id); [reflexivity|exact IH].
Qed.

Lemma loop_search s id :
  findCategory_loop id (allSchemas s) = search s id.
Proof.
  induction s as [s IH] using schema_ind.
  rewrite allSchemas_unfold, loop_cons, search_unfold.
  destruct (defines s id); [reflexivity|].
  induction IH as [|child rest Hchild _ IHrest]; simpl; [reflexivity|].
  rewrite loop_app, Hchild.
  destruct (search child id); [reflexivity|exact IHrest].
Qed.

(** A loop that returns [c] stopped at the first schema defining [id]. *)
Lemma loop_first id l c :
  findCategory_loop id l = Some c ->
  exists before s after,
    l = before ++ s :: after
    /\ Forall (fun x => defines x id = None) before
    /\ defines s id = Some c.
Proof.
  induction l as [|s l IH]; [discriminate|].
  rewrite loop_cons. destruct (defines s id) as [d|] eqn:E.
  - intros [= <-]. exists [], s, l. by repeat split.
  - intros H. destruct (IH H) as (before & s' & after & -> & Hb & Hs).
    exists (s :: before), s', after. repeat split; [|assumption].
    by constructor.
Qed.

Lemma loop_none id l :
  findCategory_loop id l = None <-> Forall (fun x => defines x id = None) l.
Proof.
  induction l as [|s l IH]; [by split|].
  rewrite loop_cons. split.
  - destruct (defines s id) eqn:E; [discriminate|].
    intros H. constructor; [assumption|by apply IH].
  - intros H. inversion H as [|? ? Hs Hl]; subst. rewrite Hs. by apply IH.
Qed.
End SchemaLookup.

Example findCategory_shape :
  GraphSchema.findCategory Examples.rootSchema "shape" = Some Examples.rootShape.
Proof. reflexivity. Qed.

Example findCategory_leaf :
  GraphSchema.findCategory Examples.rootSchema "leaf" = Some Examples.deepLeaf.
Proof. reflexivity. Qed.

Example findCategory_missing :
  GraphSchema.findCategory Examples.rootSchema "node" = None.
Proof. reflexivity. Qed.

(** C6. [findCategory] scans [allSchemas()], which lists the schema itself
    first and then each child's subtree in registration order; it agrees
    with the self-first, depth-first [search]; a category the schema
    defines itself is the one returned, whatever its descendants define;
    a returned category is that of the first schema of the scan defining
    the id; and the result is the not-found value exactly when no schema
    of the scan defines the id. *)
Theorem findCategory_self_first_depth_first
    (s : GraphSchema.t) (id : GraphCategoryIdLike) :
  GraphSchema.allSchemas s
    = s :: flat_map GraphSchema.allSchemas (GraphSchema.children s)
  /\ GraphSchema.findCategory s id = GraphSchema.search s id
  /\ (forall c, GraphSchema.defines s id = Some c ->
        GraphSchema.findCategory s id = Some c)
  /\ (forall c, GraphSchema.findCategory s id = Some c ->
        exists before x after,
          GraphSchema.allSchemas s = before ++ x :: after
          /\ Forall (fun y => GraphSchema.defines y id = None) before
          /\ GraphSchema.defines x id = Some c)
  /\ (GraphSchema.findCategory s id = None <->
      Forall (fun x => GraphSchema.defines x id = None) (GraphSchema.allSchemas s)).
Proof.
  unfold GraphSchema.findCategory. repeat split.
  - apply SchemaLookup.allSchemas_unfold.
  - apply SchemaLookup.loop_search.
  - intros c Hc. rewrite SchemaLookup.allSchemas_unfold, SchemaLookup.loop_cons.
    by rewrite Hc.
  - intros c. apply SchemaLookup.loop_first.
  - apply SchemaLookup.loop_none.
  - apply SchemaLookup.loop_none.
Qed.

Lemma findCategory_self_first_depth_first_witness :
  GraphSchema.defines Examples.rootSchema "shape" = Some Examples.rootShape
  /\ GraphSchema.defines Examples.firstSchema "shape" = Some Examples.childShape
  /\ GraphSchema.findCategory Examples.rootSchema "shape" = Some Examples.rootShape.
Proof.
  split; [reflexivity|]. split; [reflexivity|].
  apply (findCategory_self_first_depth_first Examples.rootSchema "shape").
  reflexivity.
Defined.

(** ** The property map *)
Module PropertyMapFacts.
Import PropertyMap.

Lemma same_true p q : GraphProperty.same p q = true <-> GraphProperty.ref_ p = GraphProperty.ref_ q.
Proof. unfold GraphProperty.same. apply Nat.eqb_eq. Qed.

Lemma same_false p q : GraphProperty.same p q = false <-> GraphProperty.ref_ p <> GraphProperty.ref_ q.
Proof. unfold GraphProperty.same. apply Nat.eqb_neq. Qed.

Lemma same_refl p : GraphProperty.same p p = true.
Proof. by apply same_true. Qed.

Lemma same_subst k p q :
  GraphProperty.same k p = true -> GraphProperty.same k q = GraphProperty.same p q.
Proof. unfold GraphProperty.same. intros H%Nat.eqb_eq. by rewrite H. Qed.

Lemma has_keys m p : has m p = true <-> In (GraphProperty.ref_ p) (keys m).
Proof.
  induction m as [|[k v] m IH]; simpl; [split; [discriminate|tauto]|].
  rewrite orb_true_iff, IH, same_true. reflexivity.
Qed.

Lemma has_false_keys m p : has m p = false <-> ~ In (GraphProperty.ref_ p) (keys m).
Proof. rewrite <- has_keys. destruct (has m p); split; congruence. Qed.

Lemma has_false_get m p : has m p = false -> get m p = undefined.
Proof.
  induction m as [|[k v] m IH]; simpl; [reflexivity|].
  intros [Hk Hm]%orb_false_iff. rewrite Hk. by apply IH.
Qed.

Lemma get_has m p : get m p <> undefined -> has m p = true.
Proof.
  intros H. destruct (has m p) eqn:E; [reflexivity|].
  by apply has_false_get in E.
Qed.

Lemma has_get m p : no_undefined m -> has m p = true -> get m p <> undefined.
Proof.
  unfold no_undefined.
  induction m as [|[k v] m IH]; simpl; [discriminate|].
  intros Hm. inversion Hm as [|? ? Hv Hrest]; subst; simpl in *.
  destruct (GraphProperty.same k p); [auto|]. simpl. by apply IH.
Qed.

Lemma get_set_same m p v : get (set m p v) p = v.
Proof.
  induction m as [|[k w] m IH]; simpl.
  - by rewrite same_refl.
  - destruct (GraphProperty.same k p) eqn:E; simpl; by rewrite E.
Qed.

Lemma get_set_other m p q v :
  GraphProperty.same p q = false -> get (set m p v) q = get m q.
Proof.
  intros Hpq. induction m as [|[k w] m IH]; simpl.
  - by rewrite Hpq.
  - destruct (GraphProperty.same k p) eqn:E; simpl.
    + by rewrite (same_subst _ _ _ E), Hpq.
    + by rewrite IH.
Qed.

Lemma has_set_same m p v : has (set m p v) p = true.
Proof.
  induction m as [|[k w] m IH]; simpl.
  - by rewrite same_refl.
  - destruct (GraphProperty.same k p) eqn:E; simpl; rewrite E; [reflexivity|exact IH].
Qed.

Lemma has_set_other m p q v :
  GraphProperty.same p q = false -> has (set m p v) q = has m q.
Proof.
  intros Hpq. induction m as [|[k w] m IH]; simpl.
  - by rewrite Hpq.
  - destruct (GraphProperty.same k p) eqn:E; simpl; [reflexivity|by rewrite IH].
Qed.

Lemma keys_set m p v :
  keys (set m p v) = if has m p then keys m else keys m ++ [GraphProperty.ref_ p].
Proof.
  induction m as [|[k w] m IH]; simpl; [reflexivity|].
  destruct (GraphProperty.same k p) eqn:E; simpl; [reflexivity|].
  unfold keys in *. rewrite IH. by destruct (has m p).
Qed.

Lemma wf_set m p v : wf m -> wf (set m p v).
Proof.
  unfold wf. rewrite keys_set. destruct (has m p) eqn:E; [auto|].
  intros H. apply NoDup_app. repeat split; [assumption| |apply NoDup_singleton].
  intros x Hx [<-|[]]%list_elem_of_In. apply has_false_keys in E.
  by apply E, list_elem_of_In.
Qed.

Lemma no_undefined_set m p v :
  v <> undefined -> no_undefined m -> no_undefined (set m p v).
Proof.
  intros Hv. unfold no_undefined.
  induction m as [|[k w] m IH]; simpl; intros Hm.
  - by repeat constructor.
  - inversion Hm as [|? ? Hw Hrest]; subst.
    destruct (GraphProperty.same k p); constructor; auto.
Qed.

Lemma no_undefined_delete m p : no_undefined m -> no_undefined (delete m p).
Proof.
  unfold no_undefined.
  induction m as [|[k w] m IH]; simpl; intros Hm; [assumption|].
  inversion Hm as [|? ? Hw Hrest]; subst.
  destruct (GraphProperty.same k p); [assumption|constructor; auto].
Qed.

Lemma keys_delete_incl m p x : In x (keys (delete m p)) -> In x (keys m).
Proof.
  induction m as [|[k w] m IH]; simpl; [tauto|].
  destruct (GraphProperty.same k p); simpl; tauto.
Qed.

Lemma wf_delete m p : wf m -> wf (delete m p).
Proof.
  unfold wf. induction m as [|[k w] m IH]; simpl; intros Hm; [assumption|].
  apply NoDup_cons in Hm as [Hk Hm].
  destruct (GraphProperty.same k p); simpl; [assumption|].
  apply NoDup_cons. split; [|auto].
  intros Hin%list_elem_of_In%keys_delete_incl. by apply Hk, list_elem_of_In.
Qed.

Lemma has_delete_same m p : wf m -> has (delete m p) p = false.
Proof.
  unfold wf. induction m as [|[k w] m IH]; simpl; intros Hm; [reflexivity|].
  apply NoDup_cons in Hm as [Hk Hm].
  destruct (GraphProperty.same k p) eqn:E; simpl.
  - apply has_false_keys. apply same_true in E. rewrite <- E.
    intros Hin. by apply Hk, list_elem_of_In.
  - rewrite E. simpl. auto.
Qed.

Lemma get_delete_other m p q :
  GraphProperty.same p q = false -> get (delete m p) q = get m q.
Proof.
  intros Hpq. induction m as [|[k w] m IH]; simpl; [reflexivity|].
  destruct (GraphProperty.same k p) eqn:E; simpl.
  - by rewrite (same_subst _ _ _ E), Hpq.
  - by rewrite IH.
Qed.

Lemma delete_set_fresh m p v : has m p = false -> delete (set m p v) p = m.
Proof.
  induction m as [|[k w] m IH]; simpl.
  - by rewrite same_refl.
  - intros [Hk Hm]%orb_false_iff. rewrite Hk. simpl. rewrite Hk. by rewrite IH.
Qed.
End PropertyMapFacts.

(** ** Reading a property *)
Module GetFacts.
Import GraphObject.

Lemma stored_ownValue o P :
  match _properties o with
  | Some m => PropertyMap.get m P
  | None => undefined
  end = ownValue o P.
Proof. unfold ownValue, entries. by destruct (_properties o). Qed.

Lemma get_unfold o P :
  get o (inr P) =
  let value := if is_undefined (ownValue o P) then inheritedValue o P else ownValue o P in
  match is_undefined value, _owner o with
  | true, Some owner =>
      GraphMetadata.defaultValue (GraphProperty.getMetadata P (Graph.ref_ owner))
  | _, _ => value
  end.
Proof. unfold get; simpl. by rewrite stored_ownValue. Qed.

Lemma hasOwn_entries o P : hasOwn o (inr P) = PropertyMap.has (entries o) P.
Proof. unfold hasOwn, entries; simpl. by destruct (_properties o). Qed.

Lemma _find_chain_first owner P c :
  _find_chain owner P c =
  option_map (fun c => GraphCategory.getMetadata c (Graph.ref_ owner))
    (find (owns owner P) (GraphCategory.chain c)).
Proof.
  induction c as [r i g|r i b g IH] using GraphCategory.chain_ind; simpl;
    unfold owns at 1; simpl;
    destruct (GraphMetadata.hasOwn _ _); try reflexivity.
  exact IH.
Qed.

Lemma find_app {A} (f : A -> bool) l1 l2 :
  find f (l1 ++ l2) = match find f l1 with Some x => Some x | None => find f l2 end.
Proof.
  induction l1 as [|x l1 IH]; simpl; [reflexivity|].
  by destruct (f x).
Qed.

Lemma _find_loop_first owner P cats :
  _find_loop owner P cats =
  option_map (fun c => GraphCategory.getMetadata c (Graph.ref_ owner))
    (find (owns owner P) (flat_map GraphCategory.chain cats)).
Proof.
  induction cats as [|c cats IH]; simpl; [reflexivity|].
  rewrite find_app, _find_chain_first.
  destruct (find _ (GraphCategory.chain c)); simpl; [reflexivity|exact IH].
Qed.

Lemma _find_firstOwning o P :
  _find o P =
  match _owner o with
  | Some owner =>
      option_map (fun c => GraphCategory.getMetadata c (Graph.ref_ owner)) (firstOwning o P)
  | None => None
  end.
Proof.
  unfold _find, firstOwning, categories.
  destruct (_categories o) as [cats|], (_owner o) as [owner|]; try reflexivity.
  apply _find_loop_first.
Qed.

Lemma get_ownerless_value o P :
  _owner o = None -> get o (inr P) = ownValue o P.
Proof.
  intros Ho. rewrite get_unfold. unfold inheritedValue.
  rewrite _find_firstOwning, Ho. simpl.
  destruct (is_undefined (ownValue o P)) eqn:E.
  - apply is_undefined_true in E. by rewrite E.
  - by rewrite E.
Qed.
End GetFacts.

(** ** Writing and deleting a property *)
Module SetFacts.
Import GraphObject.

Lemma set_unfold o P v :
  v <> undefined ->
  set o (inr P) v =
  let this' := with_properties o (Some (entries o)) in
  let metadata := resolveMetadata o P in
  if strict_eq v (ownValue o P) then (this', [])
  else if negb (is_undefined (ownValue o P)) && GraphMetadata.isImmutable metadata
  then (this', [])
  else if GraphMetadata.canValidate metadata && negb (GraphMetadata.validate metadata v)
  then (this', [])
  else (with_properties o (Some (PropertyMap.set (entries o) P v)),
        [PropertyChanged (GraphProperty.id P)]).
Proof.
  intros Hv%is_undefined_false. unfold set. rewrite Hv. reflexivity.
Qed.

Lemma delete_unfold o P :
  delete o (inr P) =
  if negb (hasOwn o (inr P)) then (false, o, [])
  else if negb (GraphMetadata.isRemovable (resolveMetadata o P)) then (false, o, [])
  else (true,
        with_properties o (Some (PropertyMap.delete (entries o) P)),
        [PropertyChanged (GraphProperty.id P)]).
Proof.
  unfold delete, hasOwn, entries; simpl.
  destruct (_properties o) as [m|]; reflexivity.
Qed.

(** A key that is an id is resolved once, then the method goes on as for
    the property. *)
Lemma delete_key o k :
  delete o k =
  match resolveProperty o k with
  | Some P => delete o (inr P)
  | None => (false, o, [])
  end.
Proof. unfold delete. by destruct (resolveProperty o k). Qed.

Lemma set_key o k v :
  set o k v =
  match resolveProperty o k with
  | Some P => set o (inr P) v
  | None => (o, [])
  end.
Proof.
  unfold set. rewrite (delete_key o k).
  destruct (resolveProperty o k) as [P|]; [reflexivity|].
  by destruct (is_undefined v).
Qed.

Lemma set_undefined o k :
  set o k undefined = (snd (fst (delete o k)), snd (delete o k)).
Proof. unfold set. simpl. by destruct (delete o k) as [[b o'] raised]. Qed.

Lemma same_state_refl o : same_state o o.
Proof. by repeat split. Qed.


Lemma allocated_id o m : _properties o = Some m -> with_properties o (Some m) = o.
Proof. destruct o as [w c p b]; simpl. by intros ->. Qed.

Lemma entries_with_properties o m : entries (with_properties o (Some m)) = m.
Proof. reflexivity. Qed.

Lemma owner_with_properties o m : _owner (with_properties o m) = _owner o.
Proof. reflexivity. Qed.

Lemma ownValue_stored o P :
  ownValue o P <> undefined -> exists m, _properties o = Some m.
Proof.
  unfold ownValue, entries. destruct (_properties o) as [m|]; [eauto|].
  simpl. congruence.
Qed.
End SetFacts.

Example get_detached :
  GraphObject.get Examples.detached (inr Examples.count) = undefined.
Proof. reflexivity. Qed.

Example get_through_base :
  GraphObject.get Examples.owned (inr Examples.count) = num 7.
Proof. reflexivity. Qed.

Example get_owner_default :
  GraphObject.get Examples.ownedPlain (inr Examples.count) = num 0.
Proof. reflexivity. Qed.

(** C1, as the code has it. For an object without owner and without a
    stored value for the property, [get] returns [undefined], whatever the
    property's ownerless default metadata says: that metadata is consulted
    by [set] and [delete] only. So in the scenario, with a value the
    ownerless metadata accepts and a removable property, [get] returns
    [undefined], then the value set, and after the successful [delete]
    [undefined] again. *)
Theorem get_ownerless_no_default (o : GraphObject.t) (P : GraphProperty.t) :
  GraphObject._owner o = None ->
  GraphObject.hasOwn o (inr P) = false ->
  GraphObject.get o (inr P) = undefined
  /\ forall v,
      v <> undefined ->
      GraphMetadata.canValidate (GraphProperty.createDefaultMetadata P)
        && negb (GraphMetadata.validate (GraphProperty.createDefaultMetadata P) v) = false ->
      GraphMetadata.isRemovable (GraphProperty.createDefaultMetadata P) = true ->
      let o1 := fst (GraphObject.set o (inr P) v) in
      GraphObject.ownValue o1 P = v
      /\ GraphObject.get o1 (inr P) = v
      /\ exists o2,
          GraphObject.delete o1 (inr P)
            = (true, o2, [GraphObject.PropertyChanged (GraphProperty.id P)])
          /\ GraphObject.get o2 (inr P) = undefined.
Proof.
  intros Ho Hhas.
  assert (Hown : GraphObject.ownValue o P = undefined).
  { apply PropertyMapFacts.has_false_get. by rewrite <- GetFacts.hasOwn_entries. }
  split; [by rewrite GetFacts.get_ownerless_value|].
  intros v Hv Hvalid Hrem o1.
  assert (Ho1 : o1 = GraphObject.with_properties o
                       (Some (PropertyMap.set (GraphObject.entries o) P v))).
  { unfold o1. rewrite SetFacts.set_unfold by assumption. simpl.
    rewrite Hown. unfold GraphObject.resolveMetadata. rewrite Ho, Hvalid.
    by rewrite (strict_eq_neq _ _ Hv). }
  clearbody o1. subst o1.
  assert (Hstored : GraphObject.ownValue
                      (GraphObject.with_properties o
                         (Some (PropertyMap.set (GraphObject.entries o) P v))) P = v).
  { unfold GraphObject.ownValue.
    rewrite SetFacts.entries_with_properties. apply PropertyMapFacts.get_set_same. }
  split; [assumption|]. split.
  { by rewrite GetFacts.get_ownerless_value. }
  eexists. split.
  - rewrite SetFacts.delete_unfold, GetFacts.hasOwn_entries.
    rewrite SetFacts.entries_with_properties.
    rewrite PropertyMapFacts.has_set_same. simpl.
    unfold GraphObject.resolveMetadata.
    rewrite SetFacts.owner_with_properties, Ho, Hrem. simpl. reflexivity.
  - rewrite GetFacts.get_ownerless_value by assumption.
    unfold GraphObject.ownValue. rewrite SetFacts.entries_with_properties.
    rewrite PropertyMapFacts.delete_set_fresh
      by (by rewrite <- GetFacts.hasOwn_entries).
    exact Hown.
Qed.

Lemma get_ownerless_no_default_witness :
  GraphObject.get Examples.detached (inr Examples.count) = undefined
  /\ GraphObject.get (fst (GraphObject.set Examples.detached (inr Examples.count) (num 5)))
       (inr Examples.count) = num 5.
Proof.
  destruct (get_ownerless_no_default Examples.detached Examples.count
              eq_refl eq_refl) as [H0 H].
  split; [exact H0|].
  destruct (H (num 5)) as (_ & H5 & _); [discriminate|reflexivity|reflexivity|].
  exact H5.
Defined.

(** C1 as stated fails: the property's ownerless default is 0, the object
    has no owner and no stored value, and [get] returns [undefined]. *)
Lemma get_ownerless_default_counterexample :
  GraphObject._owner Examples.detached = None
  /\ GraphObject.hasOwn Examples.detached (inr Examples.count) = false
  /\ GraphMetadata.defaultValue (GraphProperty.createDefaultMetadata Examples.count) = num 0
  /\ GraphObject.get Examples.detached (inr Examples.count)
     <> GraphMetadata.defaultValue (GraphProperty.createDefaultMetadata Examples.count).
Proof. repeat split. discriminate. Qed.

(** C2. [get] resolves a property in this order: the object's own stored
    value; otherwise the value held by the per-owner metadata of the first
    category, in the object's category set with each category walked up
    its [basedOn] chain, whose metadata explicitly owns the property;
    otherwise, for an object with an owner, the default value of the
    property's metadata for that owner; and [undefined] when nothing
    resolves. A step that yields [undefined] leaves the property
    unresolved for the next step. *)
Theorem get_resolution_order (o : GraphObject.t) (P : GraphProperty.t) :
  let own := GraphObject.ownValue o P in
  let inherited := GraphObject.inheritedValue o P in
  (GraphObject.no_undefined o -> GraphObject.hasOwn o (inr P) = true -> own <> undefined)
  /\ (GraphObject.hasOwn o (inr P) = false -> own = undefined)
  /\ inherited =
       match GraphObject._owner o, GraphObject.firstOwning o P with
       | Some owner, Some category =>
           GraphMetadata.get (GraphCategory.getMetadata category (Graph.ref_ owner))
             (GraphProperty.ref_ P)
       | _, _ => undefined
       end
  /\ (own <> undefined -> GraphObject.get o (inr P) = own)
  /\ (own = undefined -> inherited <> undefined -> GraphObject.get o (inr P) = inherited)
  /\ (own = undefined -> inherited = undefined ->
      forall owner, GraphObject._owner o = Some owner ->
        GraphObject.get o (inr P)
        = GraphMetadata.defaultValue (GraphProperty.getMetadata P (Graph.ref_ owner)))
  /\ (own = undefined -> inherited = undefined -> GraphObject._owner o = None ->
      GraphObject.get o (inr P) = undefined).
Proof.
  intros own inherited. subst own inherited.
  split; [|split; [|split]].
  - intros Hinv Hhas. rewrite GetFacts.hasOwn_entries in Hhas.
    by apply PropertyMapFacts.has_get.
  - intros Hhas. rewrite GetFacts.hasOwn_entries in Hhas.
    by apply PropertyMapFacts.has_false_get.
  - unfold GraphObject.inheritedValue. rewrite GetFacts._find_firstOwning.
    destruct (GraphObject._owner o) as [owner|]; [|reflexivity].
    by destruct (GraphObject.firstOwning o P).
  - rewrite GetFacts.get_unfold. simpl. repeat split.
    + intros Hown. apply is_undefined_false in Hown. by rewrite !Hown.
    + intros Hown Hinh. rewrite Hown. simpl.
      apply is_undefined_false in Hinh. by rewrite Hinh.
    + intros Hown Hinh owner Ho. rewrite Hown, Hinh, Ho. reflexivity.
    + intros Hown Hinh Ho. rewrite Hown, Hinh, Ho. reflexivity.
Qed.

Lemma get_resolution_order_witness :
  GraphObject.firstOwning Examples.owned Examples.count = Some Examples.base
  /\ GraphObject.get Examples.owned (inr Examples.count) = num 7.
Proof.
  split; [reflexivity|].
  destruct (get_resolution_order Examples.owned Examples.count)
    as (_ & _ & _ & _ & H & _).
  apply H; [reflexivity|discriminate].
Defined.

Example set_then_get :
  GraphObject.get Examples.holdsFive (inr Examples.count) = num 5.
Proof. reflexivity. Qed.

Example set_locked_refused :
  GraphObject.set Examples.holdsLocked (inr Examples.locked) (num 2)
  = (Examples.holdsLocked, []).
Proof. reflexivity. Qed.




(** C5. [delete] returns [false] and changes nothing when the object
    stores no value for the property or the metadata marks it
    non-removable; otherwise it removes the value, raises one
    property-changed event and returns [true]. *)
Theorem delete_guarded (o : GraphObject.t) (P : GraphProperty.t) :
  (GraphObject.hasOwn o (inr P) = false
   \/ GraphMetadata.isRemovable (GraphObject.resolveMetadata o P) = false ->
     GraphObject.delete o (inr P) = (false, o, []))
  /\ (GraphObject.hasOwn o (inr P) = true ->
      GraphMetadata.isRemovable (GraphObject.resolveMetadata o P) = true ->
      exists o',
        GraphObject.delete o (inr P)
          = (true, o', [GraphObject.PropertyChanged (GraphProperty.id P)])
        /\ GraphObject.entries o' = PropertyMap.delete (GraphObject.entries o) P
        /\ (GraphObject.wf o -> GraphObject.hasOwn o' (inr P) = false)
        /\ (forall Q, GraphProperty.same P Q = false ->
              GraphObject.ownValue o' Q = GraphObject.ownValue o Q)
        /\ GraphObject._owner o' = GraphObject._owner o
        /\ GraphObject._categories o' = GraphObject._categories o
        /\ GraphObject._observers o' = GraphObject._observers o).
Proof.
  rewrite SetFacts.delete_unfold. split.
  - intros [-> | ->]; [reflexivity|]. simpl.
    by destruct (negb (GraphObject.hasOwn o (inr P))).
  - intros -> ->. simpl. eexists. split; [reflexivity|].
    repeat split.
    + intros Hwf. rewrite GetFacts.hasOwn_entries, SetFacts.entries_with_properties.
      by apply PropertyMapFacts.has_delete_same.
    + intros Q HQ. unfold GraphObject.ownValue.
      rewrite SetFacts.entries_with_properties.
      by apply PropertyMapFacts.get_delete_other.
Qed.

Lemma delete_guarded_witness :
  GraphObject.delete Examples.holdsLocked (inr Examples.locked)
    = (false, Examples.holdsLocked, [])
  /\ fst (fst (GraphObject.delete Examples.holdsFive (inr Examples.count))) = true.
Proof.
  split.
  - apply (delete_guarded Examples.holdsLocked Examples.locked). by right.
  - destruct (delete_guarded Examples.holdsFive Examples.count) as [_ H].
    destruct H as (o' & -> & _); reflexivity.
Defined.

(** C10, as the code has it. When the object already stores exactly the
    value being set and the value is not [NaN], [set] returns with the
    object unchanged and without raising an event; the metadata is not
    looked at, so this holds for an immutable property and for a validator
    that would reject the value. A stored [NaN] is not strictly equal to
    the [NaN] being set: the write then goes on to the metadata checks
    and, when these do not refuse it, stores again and raises one
    property-changed event. *)
Theorem set_stored_value_is_silent (o : GraphObject.t) (P : GraphProperty.t) (v : any) :
  v <> undefined ->
  GraphObject.ownValue o P = v ->
  (v <> nan -> GraphObject.set o (inr P) v = (o, []))
  /\ (v = nan ->
      GraphObject.set o (inr P) v
      = if GraphObject.set_refused o P v then (o, [])
        else (GraphObject.with_properties o
                (Some (PropertyMap.set (GraphObject.entries o) P v)),
              [GraphObject.PropertyChanged (GraphProperty.id P)])).
Proof.
  intros Hv Hown. rewrite SetFacts.set_unfold by assumption. simpl.
  destruct (SetFacts.ownValue_stored o P) as [m Hm]; [congruence|].
  assert (Hid : GraphObject.with_properties o (Some (GraphObject.entries o)) = o).
  { unfold GraphObject.entries. rewrite Hm. by apply SetFacts.allocated_id. }
  rewrite Hid, Hown. split.
  - intros Hn. by rewrite strict_eq_refl.
  - intros ->. unfold GraphObject.set_refused. rewrite Hown. simpl.
    by repeat case_match.
Qed.

Lemma set_stored_value_is_silent_witness :
  GraphMetadata.isImmutable (GraphObject.resolveMetadata Examples.holdsLocked Examples.locked) = true
  /\ GraphMetadata.validate (GraphObject.resolveMetadata Examples.holdsLocked Examples.locked) (num 1) = false
  /\ GraphObject.set Examples.holdsLocked (inr Examples.locked) (num 1)
     = (Examples.holdsLocked, []).
Proof.
  split; [reflexivity|]. split; [reflexivity|].
  destruct (set_stored_value_is_silent Examples.holdsLocked Examples.locked (num 1))
    as [H _]; [discriminate|reflexivity|].
  apply H. discriminate.
Defined.

(** C10 as stated fails for [NaN]: the object stores [NaN] for the
    property, and setting [NaN] again raises a property-changed event. *)
Lemma set_stored_nan_counterexample :
  nan <> undefined
  /\ GraphObject.ownValue Examples.holdsNaN Examples.count = nan
  /\ snd (GraphObject.set Examples.holdsNaN (inr Examples.count) nan)
     = [GraphObject.PropertyChanged "count"]
  /\ snd (GraphObject.set Examples.holdsNaN (inr Examples.count) nan) <> [].
Proof. repeat split; discriminate. Qed.

(** ** Adding and deleting a category *)
Module CategoryFacts.
Import GraphObject.

Lemma has_categories o c :
  match _categories o with
  | Some s => CategorySet.has s c
  | None => false
  end = CategorySet.has (categories o) c.
Proof. unfold categories. by destruct (_categories o). Qed.

(** Adding a category the object has changes nothing and raises nothing. *)
Lemma addCategory_present o c :
  CategorySet.has (categories o) c = true -> addCategory o c = (o, []).
Proof.
  unfold addCategory, categories. destruct o as [w [s|] p b]; simpl; [|discriminate].
  by intros ->.
Qed.

Lemma addCategory_absent o c :
  CategorySet.has (categories o) c = false ->
  addCategory o c
  = (with_categories o (Some (categories o ++ [c])), [CategoryChanged ChangeAdd c]).
Proof.
  unfold addCategory, categories. destruct (_categories o); by intros ->.
Qed.

(** Called with a category, [deleteCategory] returns a boolean: whether the
    object had it. *)
Lemma deleteCategory_instance o c :
  fst (fst (deleteCategory o (inr c)))
  = ReturnsBoolean (CategorySet.has (categories o) c).
Proof.
  unfold deleteCategory, categories; simpl.
  destruct (_categories o) as [s|]; [|reflexivity].
  by destruct (CategorySet.has s c).
Qed.

(** Deleting a category the object does not have changes nothing and
    raises nothing. *)
Lemma deleteCategory_absent o c :
  CategorySet.has (categories o) c = false ->
  deleteCategory o (inr c) = (ReturnsBoolean false, o, []).
Proof.
  unfold deleteCategory, categories; simpl.
  destruct (_categories o) as [s|]; [|reflexivity].
  by intros ->.
Qed.

(** Called with an id that resolves, it returns the removed category or
    [false]. *)
Lemma deleteCategory_resolved_id o id c :
  resolveCategory o (inl id) = Some c ->
  fst (fst (deleteCategory o (inl id)))
  = if CategorySet.has (categories o) c then ReturnsCategory c else ReturnsBoolean false.
Proof.
  unfold deleteCategory, categories. intros ->.
  destruct (_categories o) as [s|]; [|reflexivity].
  by destruct (CategorySet.has s c).
Qed.

(** Called with an id that does not resolve, it returns [undefined]. *)
Lemma deleteCategory_unresolved_id o id :
  resolveCategory o (inl id) = None ->
  deleteCategory o (inl id) = (ReturnsUndefined, o, []).
Proof. unfold deleteCategory. by intros ->. Qed.

(** An event is raised exactly when the set changed. *)
Lemma deleteCategory_event o k r o' raised :
  deleteCategory o k = (r, o', raised) ->
  (raised = [] /\ o' = o)
  \/ exists c s, _categories o = Some s /\ CategorySet.has s c = true
                 /\ resolveCategory o k = Some c
                 /\ raised = [CategoryChanged ChangeDelete c]
                 /\ _categories o' = Some (CategorySet.delete s c).
Proof.
  unfold deleteCategory.
  destruct (resolveCategory o k) as [c|]; [|intros [= <- <- <-]; by left].
  destruct (_categories o) as [s|] eqn:Es; [|intros [= <- <- <-]; by left].
  destruct (CategorySet.has s c) eqn:Eh; intros [= <- <- <-]; [|by left].
  right. exists c, s. by repeat split.
Qed.
End CategoryFacts.

(** C7, where the method departs from its declaration. The overloads of
    [deleteCategory] declare the result for an id as
    [GraphCategory | false]; for an id that resolves to no category, on an
    object without owner or with an owner whose schema does not know the
    id, the method returns [undefined]. *)
Theorem deleteCategory_unknown_id_returns_undefined :
  GraphObject.deleteCategory Examples.detached (inl "shape")
    = (GraphObject.ReturnsUndefined, Examples.detached, [])
  /\ GraphObject.deleteCategory Examples.ownedPlain (inl "node")
    = (GraphObject.ReturnsUndefined, Examples.ownedPlain, []).
Proof. split; reflexivity. Qed.

(** ** Copying properties *)
Module CopyFacts.
Import GraphObject.

Lemma step_eq this other properties raised changed entry :
  copyProperties_step this other (properties, raised, changed) entry =
  if writes_in this other properties entry
  then (PropertyMap.set properties (fst entry) (snd entry),
        raised ++ [raise_for entry], true)
  else (properties, raised, changed).
Proof.
  destruct entry as [p v]. unfold copyProperties_step, writes_in; simpl.
  destruct (strict_eq _ v); [reflexivity|]. simpl.
  by destruct (copy_refused _ _ _).
Qed.

Lemma writes_in_ext this other m1 m2 entry :
  PropertyMap.get m1 (fst entry) = PropertyMap.get m2 (fst entry) ->
  writes_in this other m1 entry = writes_in this other m2 entry.
Proof. unfold writes_in. by intros ->. Qed.

Lemma not_key_same (p : GraphProperty.t) (e : GraphProperty.t * any) rest :
  ~ In (GraphProperty.ref_ p) (PropertyMap.keys rest) -> In e rest ->
  GraphProperty.same p (fst e) = false.
Proof.
  intros Hp He. apply PropertyMapFacts.same_false. intros Heq. apply Hp.
  rewrite Heq. unfold PropertyMap.keys.
  by apply (in_map (fun e => GraphProperty.ref_ (fst e))).
Qed.

Lemma existsb_ext_in {A} (f g : A -> bool) l :
  (forall a, In a l -> f a = g a) -> existsb f l = existsb g l.
Proof.
  induction l as [|x l IH]; simpl; [reflexivity|].
  intros H. rewrite (H x) by tauto. rewrite IH; [reflexivity|].
  intros a Ha. apply H. tauto.
Qed.

Lemma fold_spec this other theirs :
  NoDup (PropertyMap.keys theirs) ->
  forall properties raised changed,
  exists properties',
    fold_left (copyProperties_step this other) theirs (properties, raised, changed)
    = (properties',
       raised ++ map raise_for (List.filter (writes_in this other properties) theirs),
       changed || existsb (writes_in this other properties) theirs)
    /\ (forall e, In e theirs ->
          PropertyMap.get properties' (fst e)
          = if writes_in this other properties e then snd e
            else PropertyMap.get properties (fst e))
    /\ (forall q, ~ In (GraphProperty.ref_ q) (PropertyMap.keys theirs) ->
          PropertyMap.get properties' q = PropertyMap.get properties q).
Proof.
  induction theirs as [|[p v] rest IH]; intros Hnd properties raised changed.
  - exists properties. simpl. rewrite app_nil_r, orb_false_r. by repeat split.
  - simpl in Hnd. apply NoDup_cons in Hnd as [Hp Hrest].
    rewrite list_elem_of_In in Hp.
    cbn [fold_left]. rewrite step_eq.
    set (w := writes_in this other properties (p, v)).
    set (properties1 := if w then PropertyMap.set properties p v else properties).
    assert (Hother : forall q, GraphProperty.same p q = false ->
              PropertyMap.get properties1 q = PropertyMap.get properties q).
    { intros q Hq. unfold properties1. destruct w; [|reflexivity].
      by apply PropertyMapFacts.get_set_other. }
    assert (Hw : forall e, In e rest ->
              writes_in this other properties1 e = writes_in this other properties e).
    { intros e He. apply writes_in_ext, Hother. by eapply not_key_same. }
    destruct (IH Hrest properties1
                (if w then raised ++ [raise_for (p, v)] else raised)
                (if w then true else changed))
      as (properties' & Hfold & Hin & Hout).
    exists properties'. split; [|split].
    + simpl List.filter. simpl existsb. fold w.
      rewrite <- (filter_ext_in _ _ _ Hw).
      rewrite <- (existsb_ext_in _ _ _ Hw).
      unfold properties1 in Hfold. destruct w; simpl.
      * rewrite Hfold, <- app_assoc, orb_true_r. reflexivity.
      * rewrite Hfold. reflexivity.
    + intros e [<-|He].
      * simpl. rewrite Hout by assumption. fold w. unfold properties1.
        destruct w; [apply PropertyMapFacts.get_set_same|reflexivity].
      * rewrite (Hin e He), (Hw e He).
        rewrite Hother by (by eapply not_key_same). reflexivity.
    + intros q Hq. simpl in Hq.
      rewrite Hout by tauto. apply Hother.
      apply PropertyMapFacts.same_false. tauto.
Qed.
End CopyFacts.

Example copy_skips_immutable :
  GraphObject.copyProperties Examples.target Examples.source
  = (true,
     GraphObject.with_properties Examples.target
       (Some [(Examples.fixed, num 9); (Examples.count, num 3)]),
     [GraphObject.PropertyChanged "count"]).
Proof. reflexivity. Qed.

Module CopyTheorem.
Import GraphObject.


Lemma copyProperties_eq Y X :
  copyProperties Y X =
  match entries X with
  | [] => (false, Y, [])
  | _ :: _ =>
      let '(properties, raised, changed) :=
        fold_left (copyProperties_step Y X) (entries X) (entries Y, [], false) in
      (changed, with_properties Y (Some properties), raised)
  end.
Proof.
  unfold copyProperties, entries.
  destruct (_properties X) as [[|e l]|]; reflexivity.
Qed.

Lemma copyProperties_fold Y X :
  wf X ->
  exists properties',
    copyProperties Y X
    = (existsb (copy_writes Y X) (entries X),
       match entries X with
       | [] => Y
       | _ :: _ => with_properties Y (Some properties')
       end,
       map raise_for (List.filter (copy_writes Y X) (entries X)))
    /\ (forall e, In e (entries X) ->
          PropertyMap.get properties' (fst e)
          = if copy_writes Y X e then snd e else ownValue Y (fst e))
    /\ (forall q, ~ In (GraphProperty.ref_ q) (PropertyMap.keys (entries X)) ->
          PropertyMap.get properties' q = ownValue Y q).
Proof.
  intros Hwf.
  destruct (CopyFacts.fold_spec Y X (entries X) Hwf (entries Y) [] false)
    as (properties' & Hfold & Hin & Hout).
  exists properties'. split; [|split; assumption].
  rewrite copyProperties_eq.
  destruct (entries X) as [|e theirs]; [reflexivity|].
  unfold PropertyMap.t in *. rewrite Hfold. reflexivity.
Qed.
End CopyTheorem.




(** ** What every method preserves *)
Module Preservation.
Import GraphObject.

Ltac crush_method :=
  repeat (case_match; simpl in *; subst; try reflexivity; try assumption).

(** *** No method but [_setOwner] writes [_owner] *)

Lemma owner_subscribe o s ev : _owner (subscribe o s ev) = _owner o.
Proof. reflexivity. Qed.

Lemma owner_addCategory o c : _owner (fst (addCategory o c)) = _owner o.
Proof. unfold addCategory. crush_method. Qed.

Lemma owner_deleteCategory o k : _owner (snd (fst (deleteCategory o k))) = _owner o.
Proof. unfold deleteCategory. crush_method. Qed.

Lemma owner_delete o k : _owner (snd (fst (delete o k))) = _owner o.
Proof. unfold delete. crush_method. Qed.

Lemma owner_set o k v : _owner (fst (set o k v)) = _owner o.
Proof.
  unfold set. destruct (is_undefined v).
  - pose proof (owner_delete o k) as H.
    destruct (delete o k) as [[b o'] raised]. exact H.
  - crush_method.
Qed.

Lemma owner_copyCategories o other : _owner (snd (fst (copyCategories o other))) = _owner o.
Proof. unfold copyCategories. crush_method. Qed.

Lemma owner_copyProperties o other : _owner (snd (fst (copyProperties o other))) = _owner o.
Proof. unfold copyProperties. crush_method. Qed.

Lemma owner_setOwner o g w : _owner o = Some g -> _owner (_setOwner o w) = Some g.
Proof. unfold _setOwner. intros H. rewrite H. by destruct w. Qed.

Lemma setOwner_noop o g w : _owner o = Some g -> _setOwner o w = o.
Proof. unfold _setOwner. intros ->. by destruct w. Qed.

(** *** No method stores [undefined] *)

Lemma entries_addCategory o c : entries (fst (addCategory o c)) = entries o.
Proof. unfold addCategory. crush_method. Qed.

Lemma entries_deleteCategory o k : entries (snd (fst (deleteCategory o k))) = entries o.
Proof. unfold deleteCategory. crush_method. Qed.

Lemma entries_copyCategories o other :
  entries (snd (fst (copyCategories o other))) = entries o.
Proof. unfold copyCategories. crush_method. Qed.

Lemma entries_constructor w c : entries (constructor w c) = [].
Proof. unfold constructor. destruct c; [|reflexivity]. apply entries_addCategory. Qed.

Lemma delete_keeps_defined o k : no_undefined o -> no_undefined (snd (fst (delete o k))).
Proof.
  intros H. rewrite SetFacts.delete_key.
  destruct (resolveProperty o k) as [P|]; [|assumption].
  rewrite SetFacts.delete_unfold.
  repeat (case_match; try assumption).
  by apply PropertyMapFacts.no_undefined_delete.
Qed.

Lemma set_keeps_defined o k v : no_undefined o -> no_undefined (fst (set o k v)).
Proof.
  intros H. destruct (decide (v = undefined)) as [->|Hv].
  - rewrite SetFacts.set_undefined. by apply delete_keeps_defined.
  - rewrite SetFacts.set_key.
    destruct (resolveProperty o k) as [P|]; [|assumption].
    rewrite SetFacts.set_unfold by assumption. simpl.
    repeat (case_match; try assumption).
    by apply PropertyMapFacts.no_undefined_set.
Qed.

Lemma fold_keeps_defined this other theirs :
  PropertyMap.no_undefined theirs ->
  forall properties raised changed,
    PropertyMap.no_undefined properties ->
    PropertyMap.no_undefined
      (fst (fst (fold_left (copyProperties_step this other) theirs
                   (properties, raised, changed)))).
Proof.
  unfold PropertyMap.no_undefined at 1.
  induction 1 as [|[p v] rest Hv _ IH]; intros properties raised changed Hp;
    [assumption|].
  cbn [fold_left]. rewrite CopyFacts.step_eq.
  destruct (writes_in _ _ _ _); apply IH; [|assumption].
  by apply PropertyMapFacts.no_undefined_set.
Qed.

Lemma copyProperties_keeps_defined o other :
  no_undefined o -> no_undefined other ->
  no_undefined (snd (fst (copyProperties o other))).
Proof.
  intros Ho Hother. rewrite CopyTheorem.copyProperties_eq.
  destruct (entries other) as [|e l] eqn:E; [assumption|].
  pose proof (fold_keeps_defined o other (e :: l)) as H.
  unfold no_undefined in Hother. rewrite E in Hother.
  specialize (H Hother (entries o) [] false Ho).
  unfold PropertyMap.t in *.
  destruct (fold_left _ _ _) as [[properties raised] changed]. exact H.
Qed.
End Preservation.

(** ** Sequences of calls *)
Module ProgramFacts.
Import Program.

Lemma commit_owner st i r this o g :
  fst st !! i = Some this ->
  (GraphObject._owner this = Some g -> GraphObject._owner (fst r) = Some g) ->
  owned_by o g st -> owned_by o g (commit st i r).
Proof.
  intros Hi Hr (obj & Ho & Hg). unfold owned_by, commit; simpl.
  unfold State, Store in *.
  destruct (decide (i = o)) as [->|Hne].
  - exists (fst r). split.
    + apply list_lookup_insert_eq. by eapply lookup_lt_Some.
    + apply Hr. congruence.
  - exists obj. split; [|assumption]. by rewrite list_lookup_insert_ne.
Qed.

Lemma call2_owner st i j f o g :
  (forall this that, GraphObject._owner (snd (fst (f this that))) = GraphObject._owner this) ->
  owned_by o g st -> owned_by o g (call2 st i j f).
Proof.
  intros Hf H. unfold call2.
  destruct (fst st !! i) as [this|] eqn:Ei; [|assumption].
  destruct (fst st !! j) as [that|]; [|assumption].
  apply (commit_owner st i _ this); [assumption| |assumption].
  unfold drop_result; simpl. by rewrite Hf.
Qed.

Lemma step_owner st c o g : owned_by o g st -> owned_by o g (step st c).
Proof.
  intros H. destruct c; simpl;
    try (destruct (fst st !! o0) as [this|] eqn:Ei; [|assumption];
         apply (commit_owner st o0 _ this); [assumption| |assumption];
         unfold drop_result; simpl).
  - destruct H as (obj & Ho & Hg). exists obj. split; [|assumption].
    simpl. by apply lookup_app_l_Some.
  - done.
  - by rewrite Preservation.owner_addCategory.
  - by rewrite Preservation.owner_deleteCategory.
  - by rewrite Preservation.owner_set.
  - by rewrite Preservation.owner_delete.
  - apply call2_owner; [apply Preservation.owner_copyCategories|assumption].
  - apply call2_owner; [apply Preservation.owner_copyProperties|assumption].
  - apply call2_owner; [apply Preservation.owner_copyCategories|].
    apply call2_owner; [apply Preservation.owner_copyProperties|assumption].
  - apply Preservation.owner_setOwner.
Qed.

Lemma run_owner calls : forall st o g, owned_by o g st -> owned_by o g (run st calls).
Proof.
  unfold run. induction calls as [|c calls IH]; intros st o g H; [assumption|].
  simpl. by apply IH, step_owner.
Qed.

Lemma commit_defined st i r :
  GraphObject.no_undefined (fst r) -> all_defined st -> all_defined (commit st i r).
Proof. intros Hr H. unfold all_defined, commit; simpl. by apply Forall_insert. Qed.

Lemma lookup_defined st i this :
  all_defined st -> fst st !! i = Some this -> GraphObject.no_undefined this.
Proof. intros H Hi. by eapply Forall_lookup_1. Qed.

Lemma call2_defined st i j f :
  (forall this that,
     GraphObject.no_undefined this -> GraphObject.no_undefined that ->
     GraphObject.no_undefined (snd (fst (f this that)))) ->
  all_defined st -> all_defined (call2 st i j f).
Proof.
  intros Hf H. unfold call2.
  destruct (fst st !! i) as [this|] eqn:Ei; [|assumption].
  destruct (fst st !! j) as [that|] eqn:Ej; [|assumption].
  apply commit_defined; [|assumption]. unfold drop_result; simpl.
  apply Hf; by eapply lookup_defined.
Qed.

Lemma copyCategories_defined this that :
  GraphObject.no_undefined this -> GraphObject.no_undefined that ->
  GraphObject.no_undefined (snd (fst (GraphObject.copyCategories this that))).
Proof.
  intros H _. unfold GraphObject.no_undefined.
  by rewrite Preservation.entries_copyCategories.
Qed.

Lemma step_defined st c : all_defined st -> all_defined (step st c).
Proof.
  intros H. destruct c; simpl;
    try (destruct (fst st !! o) as [this|] eqn:Ei; [|assumption];
         apply commit_defined; [|assumption]; unfold drop_result; simpl;
         pose proof (lookup_defined st o this H Ei) as Hthis).
  - unfold all_defined; simpl. apply Forall_app. split; [assumption|].
    apply Forall_singleton. unfold GraphObject.no_undefined.
    rewrite Preservation.entries_constructor. constructor.
  - exact Hthis.
  - unfold GraphObject.no_undefined. by rewrite Preservation.entries_addCategory.
  - unfold GraphObject.no_undefined. by rewrite Preservation.entries_deleteCategory.
  - by apply Preservation.set_keeps_defined.
  - by apply Preservation.delete_keeps_defined.
  - by apply call2_defined; [apply copyCategories_defined|].
  - by apply call2_defined; [apply Preservation.copyProperties_keeps_defined|].
  - apply call2_defined; [apply copyCategories_defined|].
    by apply call2_defined; [apply Preservation.copyProperties_keeps_defined|].
  - unfold GraphObject._setOwner. by repeat case_match.
Qed.

Lemma run_defined calls : forall st, all_defined st -> all_defined (run st calls).
Proof.
  unfold run. induction calls as [|c calls IH]; intros st H; [assumption|].
  simpl. by apply IH, step_defined.
Qed.

Lemma step_set_undefined st o key :
  step st (Set_ o key undefined) = step st (Delete o key).
Proof.
  simpl. destruct (fst st !! o) as [this|]; [|reflexivity].
  by rewrite SetFacts.set_undefined.
Qed.
End ProgramFacts.

Example set_undefined_deletes :
  GraphObject.set Examples.holdsFive (inr Examples.count) undefined
  = (GraphObject.with_properties Examples.holdsFive (Some []),
     [GraphObject.PropertyChanged "count"]).
Proof. reflexivity. Qed.

(** C3. [set] with [undefined] leaves the object in the state, and raises
    the events, of [delete] with the same key, for one object and as a
    step of a program; and after any sequence of calls, starting from
    nothing or from any store that holds no [undefined], no object holds
    [undefined] for a property. *)
Theorem unset_is_never_stored :
  (forall o key,
     GraphObject.set o key undefined
     = (snd (fst (GraphObject.delete o key)), snd (GraphObject.delete o key)))
  /\ (forall st o key,
        Program.step st (Program.Set_ o key undefined)
        = Program.step st (Program.Delete o key))
  /\ (forall calls o obj P v,
        fst (Program.run Program.initial calls) !! o = Some obj ->
        In (P, v) (GraphObject.entries obj) -> v <> undefined)
  /\ (forall st calls,
        Program.all_defined st -> Program.all_defined (Program.run st calls)).
Proof.
  split; [apply SetFacts.set_undefined|].
  split; [apply ProgramFacts.step_set_undefined|].
  split; [|intros st calls; apply ProgramFacts.run_defined].
  intros calls o obj P v Ho Hin.
  assert (H : Program.all_defined (Program.run Program.initial calls)).
  { apply ProgramFacts.run_defined. constructor. }
  pose proof (ProgramFacts.lookup_defined _ _ _ H Ho) as Hobj.
  unfold GraphObject.no_undefined, PropertyMap.no_undefined in Hobj.
  rewrite List.Forall_forall in Hobj. apply (Hobj (P, v) Hin).
Qed.

Lemma unset_is_never_stored_witness :
  Program.all_defined
    (Program.run Program.initial
       [Program.New None None;
        Program.Set_ 0 (inr Examples.count) (num 5);
        Program.New (Some (Examples.graph 2)) None;
        Program.CopyProperties 1 0;
        Program.Set_ 0 (inr Examples.count) undefined]).
Proof.
  destruct unset_is_never_stored as (_ & _ & _ & H).
  apply H. constructor.
Defined.

(** C9. Once an object has an owner, [_setOwner] with any graph returns the
    object as it is, and after any sequence of calls, on this object or on
    others, the object is still there with the same owner. *)
Theorem owner_is_write_once
    (st : Program.State) (o : nat) (obj : GraphObject.t) (g : Graph.t)
    (calls : list Program.Call) :
  fst st !! o = Some obj ->
  GraphObject._owner obj = Some g ->
  (forall w, GraphObject._setOwner obj w = obj)
  /\ exists obj',
      fst (Program.run st calls) !! o = Some obj'
      /\ GraphObject._owner obj' = Some g.
Proof.
  intros Ho Hg. split.
  - intros w. by eapply Preservation.setOwner_noop.
  - apply ProgramFacts.run_owner. by exists obj.
Qed.

Lemma owner_is_write_once_witness :
  exists obj',
    fst (Program.run ([Examples.target], [])
           [Program.SetOwner 0 (Some (Examples.graph 7));
            Program.Set_ 0 (inr Examples.count) (num 1);
            Program.New None None;
            Program.MergeFrom 0 1;
            Program.SetOwner 0 (Some (Examples.graph 8))]) !! 0%nat = Some obj'
    /\ GraphObject._owner obj' = Some (Examples.graph 2).
Proof.
  apply (owner_is_write_once ([Examples.target], []) 0 Examples.target
           (Examples.graph 2)); reflexivity.
Defined.

(** ** [same_state] is what the methods see

    Objects in the same state answer every query alike, and [set] and
    [delete] take them to the same state with the same events and result:
    whether an empty collection was allocated or not is not observable. *)
Module ObservationFacts.
Import GraphObject.

Lemma _find_categories o P :
  _find o P =
  match _owner o with
  | Some owner => _find_loop owner P (categories o)
  | None => None
  end.
Proof.
  unfold _find, categories.
  destruct (_categories o), (_owner o); reflexivity.
Qed.

Lemma categoryCount_categories o : categoryCount o = CategorySet.size (categories o).
Proof. unfold categoryCount, categories. by destruct (_categories o). Qed.

Lemma propertyCount_entries o : propertyCount o = PropertyMap.size (entries o).
Proof. unfold propertyCount, entries. by destruct (_properties o). Qed.

Lemma keys_entries o : keys o = map fst (entries o).
Proof. unfold keys, entries. by destruct (_properties o). Qed.

Lemma values_entries o : values o = map snd (entries o).
Proof. unfold values, entries. by destruct (_properties o). Qed.

Lemma resolveProperty_same a b k :
  same_state a b -> resolveProperty a k = resolveProperty b k.
Proof.
  intros (Ho & _). unfold resolveProperty, schema. by rewrite Ho.
Qed.

Lemma queries_same a b :
  same_state a b ->
  owner a = owner b
  /\ categoryCount a = categoryCount b
  /\ propertyCount a = propertyCount b
  /\ keys a = keys b
  /\ values a = values b
  /\ entries a = entries b
  /\ categories a = categories b
  /\ (forall k, hasOwn a k = hasOwn b k)
  /\ (forall k, has a k = has b k)
  /\ (forall k, get a k = get b k).
Proof.
  intros H. pose proof H as (Ho & Hc & He & Hb).
  assert (Hown : forall k, hasOwn a k = hasOwn b k).
  { intros k. unfold hasOwn. rewrite (resolveProperty_same a b k H).
    destruct (resolveProperty b k) as [P|]; [|reflexivity].
    pose proof (GetFacts.hasOwn_entries a P) as Ha.
    pose proof (GetFacts.hasOwn_entries b P) as Hb'.
    unfold hasOwn in Ha, Hb'. simpl in Ha, Hb'. by rewrite Ha, Hb', He. }
  assert (Hfind : forall P, _find a P = _find b P).
  { intros P. by rewrite !_find_categories, Ho, Hc. }
  repeat split; try assumption.
  - rewrite !categoryCount_categories. by rewrite Hc.
  - rewrite !propertyCount_entries. by rewrite He.
  - rewrite !keys_entries. by rewrite He.
  - rewrite !values_entries. by rewrite He.
  - intros k. unfold has. rewrite (resolveProperty_same a b k H).
    destruct (resolveProperty b k) as [P|]; [|reflexivity].
    by rewrite Hown, Hfind.
  - intros k.
    assert (Hget : forall P, get a (inr P) = get b (inr P)).
    { intros P. rewrite !GetFacts.get_unfold. unfold inheritedValue, ownValue.
      by rewrite Hfind, He, Ho. }
    unfold get at 1 2. rewrite (resolveProperty_same a b k H).
    destruct (resolveProperty b k) as [P|]; [|reflexivity].
    apply (Hget P).
Qed.

Lemma same_state_properties a b m :
  same_state a b -> same_state (with_properties a (Some m)) (with_properties b (Some m)).
Proof. intros (Ho & Hc & He & Hb). by repeat split. Qed.

Lemma delete_same a b k :
  same_state a b ->
  fst (fst (delete a k)) = fst (fst (delete b k))
  /\ same_state (snd (fst (delete a k))) (snd (fst (delete b k)))
  /\ snd (delete a k) = snd (delete b k).
Proof.
  intros H. pose proof H as (Ho & Hc & He & Hb).
  rewrite !SetFacts.delete_key, (resolveProperty_same a b k H).
  destruct (resolveProperty b k) as [P|]; [|by repeat split].
  rewrite !SetFacts.delete_unfold, !GetFacts.hasOwn_entries, He.
  unfold resolveMetadata. rewrite Ho.
  destruct (negb (PropertyMap.has (entries b) P)); [by repeat split|].
  destruct (negb _); [by repeat split|].
  simpl. repeat split; try assumption.
Qed.

Lemma set_same a b k v :
  same_state a b ->
  same_state (fst (set a k v)) (fst (set b k v))
  /\ snd (set a k v) = snd (set b k v).
Proof.
  intros H. destruct (decide (v = undefined)) as [->|Hv].
  - rewrite !SetFacts.set_undefined. simpl.
    by destruct (delete_same a b k H) as (_ & ? & ?).
  - pose proof H as (Ho & Hc & He & Hb).
    rewrite !SetFacts.set_key, (resolveProperty_same a b k H).
    destruct (resolveProperty b k) as [P|]; [|by split].
    rewrite !SetFacts.set_unfold by assumption. simpl.
    unfold resolveMetadata, ownValue. rewrite Ho, He.
    assert (Hsame : same_state (with_properties a (Some (entries b)))
                      (with_properties b (Some (entries b))))
      by (by apply same_state_properties).
    destruct (strict_eq v _); [by split|].
    destruct (_ && _); [by split|].
    destruct (_ && _); [by split|].
    split; [by apply same_state_properties|reflexivity].
Qed.
End ObservationFacts.

(** * Further properties of the code *)

(** ** Schema tree: properties, containment, descendants *)
Module SchemaTreeFacts.
Import GraphSchema.

Lemma searchProperty_unfold s id :
  searchProperty s id =
  match definesProperty s id with
  | Some p => Some p
  | None => searchProperty_children id (children s)
  end.
Proof.
  destruct s as [n schemas cats props]; simpl.
  destruct (definesProperty _ id); [reflexivity|].
  unfold children; simpl.
  destruct schemas as [l|]; [|reflexivity].
  induction l as [|child rest IH]; simpl; [reflexivity|].
  destruct (searchProperty child id); [reflexivity|exact IH].
Qed.

Lemma property_loop_cons id s rest :
  findProperty_loop id (s :: rest) =
  match definesProperty s id with
  | Some p => Some p
  | None => findProperty_loop id rest
  end.
Proof. unfold definesProperty; simpl. destruct (_properties s); reflexivity. Qed.

Lemma property_loop_app id l1 l2 :
  findProperty_loop id (l1 ++ l2) =
  match findProperty_loop id l1 with
  | Some p => Some p
  | None => findProperty_loop id l2
  end.
Proof.
  induction l1 as [|s l1 IH]; [reflexivity|].
  rewrite <- app_comm_cons, !property_loop_cons.
  destruct (definesProperty s id); [reflexivity|exact IH].
Qed.

Lemma property_loop_search s id :
  findProperty_loop id (allSchemas s) = searchProperty s id.
Proof.
  induction s as [s IH] using schema_ind.
  rewrite SchemaLookup.allSchemas_unfold, property_loop_cons, searchProperty_unfold.
  destruct (definesProperty s id); [reflexivity|].
  induction IH as [|child rest Hchild _ IHrest]; simpl; [reflexivity|].
  rewrite property_loop_app, Hchild.
  destruct (searchProperty child id); [reflexivity|exact IHrest].
Qed.

Lemma property_loop_first id l p :
  findProperty_loop id l = Some p ->
  exists before s after,
    l = before ++ s :: after
    /\ Forall (fun x => definesProperty x id = None) before
    /\ definesProperty s id = Some p.
Proof.
  induction l as [|s l IH]; [discriminate|].
  rewrite property_loop_cons. destruct (definesProperty s id) as [d|] eqn:E.
  - intros [= <-]. exists [], s, l. by repeat split.
  - intros H. destruct (IH H) as (before & s' & after & -> & Hb & Hs).
    exists (s :: before), s', after. repeat split; [|assumption].
    by constructor.
Qed.

Lemma property_loop_none id l :
  findProperty_loop id l = None <-> Forall (fun x => definesProperty x id = None) l.
Proof.
  induction l as [|s l IH]; [by split|].
  rewrite property_loop_cons. split.
  - destruct (definesProperty s id) eqn:E; [discriminate|].
    intros H. constructor; [assumption|by apply IH].
  - intros H. inversion H as [|? ? Hs Hl]; subst. rewrite Hs. by apply IH.
Qed.

(** Every schema listed by a descendant is listed by the ancestor. *)
Lemma allSchemas_descendants s :
  forall x, In x (allSchemas s) -> incl (allSchemas x) (allSchemas s).
Proof.
  induction s as [s IH] using schema_ind.
  intros x. rewrite (SchemaLookup.allSchemas_unfold s).
  intros [<-|Hx].
  - rewrite <- SchemaLookup.allSchemas_unfold. apply incl_refl.
  - apply in_flat_map in Hx as (child & Hchild & Hx).
    rewrite List.Forall_forall in IH.
    intros y Hy. right. apply in_flat_map. exists child. split; [assumption|].
    by apply (IH child Hchild x Hx).
Qed.

Lemma allSchemas_self s : In s (allSchemas s).
Proof. rewrite SchemaLookup.allSchemas_unfold. by left. Qed.

Lemma hasSchema_unfold same s k :
  hasSchema same s k =
  matches same k s || existsb (fun value => hasSchema same value k) (children s).
Proof.
  destruct s as [n [l|] cats props]; simpl; by destruct (matches same k _).
Qed.

Lemma existsb_flat_map {A B} (f : B -> bool) (g : A -> list B) l :
  existsb f (flat_map g l) = existsb (fun x => existsb f (g x)) l.
Proof.
  induction l as [|x l IH]; simpl; [reflexivity|].
  by rewrite existsb_app, IH.
Qed.

Lemma hasSchema_allSchemas same s k :
  hasSchema same s k = existsb (matches same k) (allSchemas s).
Proof.
  induction s as [s IH] using schema_ind.
  rewrite hasSchema_unfold, SchemaLookup.allSchemas_unfold. simpl.
  f_equal. rewrite existsb_flat_map.
  induction IH as [|child rest Hchild _ IHrest]; simpl; [reflexivity|].
  by rewrite Hchild, IHrest.
Qed.
End SchemaTreeFacts.

Example findProperty_none :
  GraphSchema.findProperty Examples.rootSchema "count" = None.
Proof. reflexivity. Qed.

Example hasSchema_deep :
  GraphSchema.hasSchema (fun _ _ => false) Examples.rootSchema (inl "deep") = true.
Proof. reflexivity. Qed.

(** X1. [findProperty] looks a property up as [findCategory] looks a
    category up: it agrees with the self-first, depth-first search over
    the children in registration order; a property the schema defines
    itself is the one returned; a returned property is that of the first
    schema of [allSchemas()] defining the id; and the result is the
    not-found value exactly when no schema of the tree defines the id. *)
Theorem findProperty_self_first_depth_first
    (s : GraphSchema.t) (id : GraphPropertyIdLike) :
  GraphSchema.findProperty s id = GraphSchema.searchProperty s id
  /\ (forall p, GraphSchema.definesProperty s id = Some p ->
        GraphSchema.findProperty s id = Some p)
  /\ (forall p, GraphSchema.findProperty s id = Some p ->
        exists before x after,
          GraphSchema.allSchemas s = before ++ x :: after
          /\ Forall (fun y => GraphSchema.definesProperty y id = None) before
          /\ GraphSchema.definesProperty x id = Some p)
  /\ (GraphSchema.findProperty s id = None <->
      Forall (fun x => GraphSchema.definesProperty x id = None)
        (GraphSchema.allSchemas s)).
Proof.
  unfold GraphSchema.findProperty. repeat split.
  - apply SchemaTreeFacts.property_loop_search.
  - intros p Hp.
    rewrite SchemaLookup.allSchemas_unfold, SchemaTreeFacts.property_loop_cons.
    by rewrite Hp.
  - intros p. apply SchemaTreeFacts.property_loop_first.
  - apply SchemaTreeFacts.property_loop_none.
  - apply SchemaTreeFacts.property_loop_none.
Qed.

(** X2. [hasSchema] answers whether some schema listed by [allSchemas()],
    the schema itself included, is the given schema or bears the given
    name; so a schema always has itself by name. *)
Theorem hasSchema_is_membership
    (same : GraphSchema.t -> GraphSchema.t -> bool)
    (s : GraphSchema.t) (k : GraphSchemaNameLike + GraphSchema.t) :
  GraphSchema.hasSchema same s k
    = existsb (GraphSchema.matches same k) (GraphSchema.allSchemas s)
  /\ GraphSchema.hasSchema same s (inl (GraphSchema.name s)) = true
  /\ (forall x, In x (GraphSchema.allSchemas s) ->
        GraphSchema.hasSchema same s (inl (GraphSchema.name x)) = true)
  /\ (forall n, GraphSchema.hasSchema same s (inl n) = true <->
        exists x, In x (GraphSchema.allSchemas s) /\ GraphSchema.name x = n).
Proof.
  assert (Hname : forall n,
            GraphSchema.hasSchema same s (inl n) = true <->
            exists x, In x (GraphSchema.allSchemas s) /\ GraphSchema.name x = n).
  { intros n. rewrite SchemaTreeFacts.hasSchema_allSchemas, existsb_exists.
    split; intros (x & Hx & Hn); exists x; (split; [assumption|]).
    - simpl in Hn. by apply String.eqb_eq in Hn.
    - simpl. by apply String.eqb_eq. }
  split; [apply SchemaTreeFacts.hasSchema_allSchemas|].
  split; [apply Hname; exists s; split; [apply SchemaTreeFacts.allSchemas_self|reflexivity]|].
  split; [|exact Hname].
  intros x Hx. apply Hname. by exists x.
Qed.

(** X3. The schemas a descendant lists are listed by its ancestor, and
    whatever id a lookup from a descendant resolves, the lookup from the
    ancestor resolves too (to the same or to a shadowing definition). *)
Theorem lookup_reaches_descendants (s x : GraphSchema.t) :
  In x (GraphSchema.allSchemas s) ->
  incl (GraphSchema.allSchemas x) (GraphSchema.allSchemas s)
  /\ (forall id c, GraphSchema.findCategory x id = Some c ->
        exists c', GraphSchema.findCategory s id = Some c')
  /\ (forall id p, GraphSchema.findProperty x id = Some p ->
        exists p', GraphSchema.findProperty s id = Some p').
Proof.
  intros Hx.
  pose proof (SchemaTreeFacts.allSchemas_descendants s x Hx) as Hincl.
  split; [exact Hincl|]. split.
  - intros id c Hc. unfold GraphSchema.findCategory in *.
    destruct (GraphSchema.findCategory_loop id (GraphSchema.allSchemas s)) as [c'|] eqn:E;
      [by exists c'|].
    apply SchemaLookup.loop_none in E. rewrite List.Forall_forall in E.
    apply SchemaLookup.loop_first in Hc as (before & y & after & Hy & _ & Hdef).
    assert (Hin : In y (GraphSchema.allSchemas s)).
    { apply Hincl. rewrite Hy. apply in_or_app. right. by left. }
    rewrite (E y Hin) in Hdef. discriminate.
  - intros id p Hp. unfold GraphSchema.findProperty in *.
    destruct (GraphSchema.findProperty_loop id (GraphSchema.allSchemas s)) as [p'|] eqn:E;
      [by exists p'|].
    apply SchemaTreeFacts.property_loop_none in E. rewrite List.Forall_forall in E.
    apply SchemaTreeFacts.property_loop_first in Hp as (before & y & after & Hy & _ & Hdef).
    assert (Hin : In y (GraphSchema.allSchemas s)).
    { apply Hincl. rewrite Hy. apply in_or_app. right. by left. }
    rewrite (E y Hin) in Hdef. discriminate.
Qed.

Lemma lookup_reaches_descendants_witness :
  exists c', GraphSchema.findCategory Examples.rootSchema "leaf" = Some c'.
Proof.
  destruct (lookup_reaches_descendants Examples.rootSchema Examples.secondSchema)
    as (_ & H & _).
  { simpl. tauto. }
  apply (H "leaf" Examples.lateLeaf). reflexivity.
Defined.

(** ** The category set *)
Module CategorySetFacts.
Import CategorySet.

Lemma csame_true c d :
  GraphCategory.same c d = true <-> GraphCategory.ref_ c = GraphCategory.ref_ d.
Proof. unfold GraphCategory.same. apply Nat.eqb_eq. Qed.

Lemma csame_refl c : GraphCategory.same c c = true.
Proof. by apply csame_true. Qed.

Lemma has_refs s c : has s c = true <-> In (GraphCategory.ref_ c) (map GraphCategory.ref_ s).
Proof.
  induction s as [|d s IH]; simpl; [split; [discriminate|tauto]|].
  rewrite orb_true_iff, IH, csame_true. reflexivity.
Qed.

Lemma has_false_refs s c :
  has s c = false <-> ~ In (GraphCategory.ref_ c) (map GraphCategory.ref_ s).
Proof. rewrite <- has_refs. destruct (has s c); split; congruence. Qed.

Lemma has_append s1 s2 c : has (s1 ++ s2) c = has s1 c || has s2 c.
Proof.
  induction s1 as [|d s1 IH]; simpl; [reflexivity|].
  by rewrite IH, orb_assoc.
Qed.

Lemma has_member s c : In c s -> has s c = true.
Proof. intros H. apply has_refs. by apply in_map. Qed.

Lemma delete_appended s c : has s c = false -> delete (s ++ [c]) c = s.
Proof.
  induction s as [|d s IH]; simpl.
  - by rewrite csame_refl.
  - intros [Hd Hs]%orb_false_iff. rewrite Hd. by rewrite IH.
Qed.

Lemma wf_appended s c : wf s -> has s c = false -> wf (s ++ [c]).
Proof.
  unfold wf. intros Hs Hc%has_false_refs. rewrite map_app. simpl.
  apply NoDup_app. repeat split; [assumption| |apply NoDup_singleton].
  intros x Hx [<-|[]]%list_elem_of_In. by apply Hc, list_elem_of_In.
Qed.

Lemma refs_delete_incl s c x :
  In x (map GraphCategory.ref_ (delete s c)) -> In x (map GraphCategory.ref_ s).
Proof.
  induction s as [|d s IH]; simpl; [tauto|].
  destruct (GraphCategory.same d c); simpl; tauto.
Qed.

Lemma wf_deleted s c : wf s -> wf (delete s c).
Proof.
  unfold wf. induction s as [|d s IH]; simpl; intros Hs; [assumption|].
  apply NoDup_cons in Hs as [Hd Hs].
  destruct (GraphCategory.same d c); simpl; [assumption|].
  apply NoDup_cons. split; [|auto].
  intros Hin%list_elem_of_In%refs_delete_incl. by apply Hd, list_elem_of_In.
Qed.

Lemma has_deleted s c : wf s -> has (delete s c) c = false.
Proof.
  unfold wf. induction s as [|d s IH]; simpl; intros Hs; [reflexivity|].
  apply NoDup_cons in Hs as [Hd Hs].
  destruct (GraphCategory.same d c) eqn:E; simpl.
  - apply has_false_refs. apply csame_true in E. rewrite <- E.
    intros Hin. by apply Hd, list_elem_of_In.
  - rewrite E. simpl. auto.
Qed.

Lemma size_deleted s c :
  size (delete s c) = if has s c then pred (size s) else size s.
Proof.
  unfold size. induction s as [|d s IH]; simpl; [reflexivity|].
  destruct (GraphCategory.same d c); simpl; [reflexivity|].
  rewrite IH. destruct (has s c) eqn:E; [|reflexivity].
  destruct s; [discriminate|reflexivity].
Qed.
End CategorySetFacts.

(** ** [copyCategories] *)
Module CopyCategoriesFacts.
Import GraphObject.

Lemma copyCategories_eq Y X :
  copyCategories Y X =
  match categories X with
  | [] => (false, Y, [])
  | _ :: _ =>
      let '(cats, raised, changed) :=
        fold_left copyCategories_step (categories X) (categories Y, [], false) in
      (changed, with_categories Y (Some cats), raised)
  end.
Proof.
  unfold copyCategories, categories.
  destruct (_categories X) as [[|e l]|]; reflexivity.
Qed.

Lemma cstep_eq cats raised changed c :
  copyCategories_step (cats, raised, changed) c =
  if CategorySet.has cats c then (cats, raised, changed)
  else (cats ++ [c], raised ++ [CategoryChanged ChangeAdd c], true).
Proof. unfold copyCategories_step. by destruct (CategorySet.has cats c). Qed.

(** The loop appends, in the other object's order, the categories the
    receiver lacks. *)
Lemma cfold_spec theirs :
  forall cats raised changed,
  exists added,
    fold_left copyCategories_step theirs (cats, raised, changed)
    = (cats ++ added,
       raised ++ map (CategoryChanged ChangeAdd) added,
       changed || negb (Nat.eqb (length added) 0))
    /\ Forall (fun c => In c theirs /\ CategorySet.has cats c = false) added
    /\ (forall c, In c theirs -> CategorySet.has (cats ++ added) c = true)
    /\ (CategorySet.wf cats -> CategorySet.wf (cats ++ added)).
Proof.
  induction theirs as [|c rest IH]; intros cats raised changed.
  - exists []. simpl. rewrite !app_nil_r, orb_false_r.
    repeat split; [constructor|intros c []|auto].
  - cbn [fold_left]. rewrite cstep_eq.
    destruct (CategorySet.has cats c) eqn:E.
    + destruct (IH cats raised changed) as (added & Hfold & Hadded & Hall & Hwf).
      exists added. repeat split; [assumption| | |assumption].
      * eapply Forall_impl; [exact Hadded|]. simpl. intros d [Hd Hh]. tauto.
      * intros d [<-|Hd]; [|by apply Hall].
        rewrite CategorySetFacts.has_append, E. reflexivity.
    + destruct (IH (cats ++ [c]) (raised ++ [CategoryChanged ChangeAdd c]) true)
        as (added & Hfold & Hadded & Hall & Hwf).
      exists (c :: added). unfold CategorySet.t in *.
      rewrite Hfold, <- !app_assoc. simpl.
      rewrite orb_true_r. repeat split.
      * constructor; [split; [by left|assumption]|].
        eapply Forall_impl; [exact Hadded|]. simpl. intros d [Hd Hh].
        split; [tauto|].
        rewrite CategorySetFacts.has_append in Hh.
        by apply orb_false_iff in Hh as [Hh _].
      * intros d [<-|Hd].
        -- rewrite CategorySetFacts.has_append. simpl.
           rewrite CategorySetFacts.csame_refl. apply orb_true_r.
        -- specialize (Hall d Hd). by rewrite <- app_assoc in Hall.
      * intros Hcats. rewrite <- app_assoc in Hwf. apply Hwf.
        by apply CategorySetFacts.wf_appended.
Qed.

(** For a set, the categories appended are those the receiver lacks, in
    the set's order. *)
Lemma cfold_filter theirs :
  CategorySet.wf theirs ->
  forall cats raised changed,
    let added := List.filter (fun c => negb (CategorySet.has cats c)) theirs in
    fold_left copyCategories_step theirs (cats, raised, changed)
    = (cats ++ added,
       raised ++ map (CategoryChanged ChangeAdd) added,
       changed || negb (Nat.eqb (length added) 0)).
Proof.
  unfold CategorySet.wf.
  induction theirs as [|c rest IH]; intros Hwf cats raised changed.
  - simpl. by rewrite !app_nil_r, orb_false_r.
  - simpl in Hwf. apply NoDup_cons in Hwf as [Hc Hrest].
    rewrite list_elem_of_In in Hc.
    cbn [fold_left List.filter]. rewrite cstep_eq.
    destruct (CategorySet.has cats c) eqn:E; cbn [negb].
    + apply (IH Hrest).
    + unfold CategorySet.t in *. rewrite (IH Hrest). cbn [length map Nat.eqb negb].
      assert (Hext : List.filter (fun d => negb (CategorySet.has (cats ++ [c]) d)) rest
                     = List.filter (fun d => negb (CategorySet.has cats d)) rest).
      { apply filter_ext_in. intros d Hd. f_equal.
        rewrite CategorySetFacts.has_append. simpl.
        assert (Hcd : GraphCategory.same c d = false).
        { apply Nat.eqb_neq. intros Heq. apply Hc. rewrite Heq. by apply in_map. }
        rewrite Hcd. simpl. apply orb_false_r. }
      rewrite Hext, <- !app_assoc, orb_true_r. reflexivity.
Qed.

Lemma has_after_filter cats theirs c :
  In c theirs ->
  CategorySet.has
    (cats ++ List.filter (fun d => negb (CategorySet.has cats d)) theirs) c = true.
Proof.
  intros Hin. rewrite CategorySetFacts.has_append.
  destruct (CategorySet.has cats c) eqn:E; [reflexivity|]. simpl.
  apply CategorySetFacts.has_member. apply filter_In. split; [assumption|].
  by rewrite E.
Qed.

Lemma cfold_noop theirs cats raised changed :
  (forall c, In c theirs -> CategorySet.has cats c = true) ->
  fold_left copyCategories_step theirs (cats, raised, changed) = (cats, raised, changed).
Proof.
  induction theirs as [|c rest IH]; intros H; [reflexivity|].
  cbn [fold_left]. rewrite cstep_eq, (H c) by (by left).
  apply IH. intros d Hd. apply H. by right.
Qed.
End CopyCategoriesFacts.

(** ** No method stores an object twice *)
Module DistinctFacts.
Import GraphObject.

Lemma categories_with_properties o m : categories (with_properties o m) = categories o.
Proof. reflexivity. Qed.

Lemma categories_delete o k : categories (snd (fst (delete o k))) = categories o.
Proof.
  rewrite SetFacts.delete_key. destruct (resolveProperty o k) as [P|]; [|reflexivity].
  rewrite SetFacts.delete_unfold. by repeat case_match.
Qed.

Lemma categories_set o k v : categories (fst (set o k v)) = categories o.
Proof.
  destruct (decide (v = undefined)) as [->|Hv].
  - rewrite SetFacts.set_undefined. apply categories_delete.
  - rewrite SetFacts.set_key. destruct (resolveProperty o k) as [P|]; [|reflexivity].
    rewrite SetFacts.set_unfold by assumption. simpl. by repeat case_match.
Qed.

Lemma categories_copyProperties o other :
  categories (snd (fst (copyProperties o other))) = categories o.
Proof.
  rewrite CopyTheorem.copyProperties_eq.
  destruct (entries other); [reflexivity|].
  unfold PropertyMap.t in *.
  by destruct (fold_left _ _ _) as [[properties raised] changed].
Qed.

Lemma wf_entries_delete o k :
  PropertyMap.wf (entries o) -> PropertyMap.wf (entries (snd (fst (delete o k)))).
Proof.
  intros H. rewrite SetFacts.delete_key.
  destruct (resolveProperty o k) as [P|]; [|assumption].
  rewrite SetFacts.delete_unfold.
  repeat (case_match; try assumption).
  by apply PropertyMapFacts.wf_delete.
Qed.

Lemma wf_entries_set o k v :
  PropertyMap.wf (entries o) -> PropertyMap.wf (entries (fst (set o k v))).
Proof.
  intros H. destruct (decide (v = undefined)) as [->|Hv].
  - rewrite SetFacts.set_undefined. by apply wf_entries_delete.
  - rewrite SetFacts.set_key.
    destruct (resolveProperty o k) as [P|]; [|assumption].
    rewrite SetFacts.set_unfold by assumption. simpl.
    repeat (case_match; try assumption).
    by apply PropertyMapFacts.wf_set.
Qed.

Lemma wf_fold this other theirs :
  forall properties raised changed,
    PropertyMap.wf properties ->
    PropertyMap.wf
      (fst (fst (fold_left (copyProperties_step this other) theirs
                   (properties, raised, changed)))).
Proof.
  induction theirs as [|e rest IH]; intros properties raised changed Hp;
    [assumption|].
  cbn [fold_left]. rewrite CopyFacts.step_eq.
  destruct (writes_in _ _ _ _); apply IH; [|assumption].
  by apply PropertyMapFacts.wf_set.
Qed.

Lemma wf_entries_copyProperties o other :
  PropertyMap.wf (entries o) ->
  PropertyMap.wf (entries (snd (fst (copyProperties o other)))).
Proof.
  intros Ho. rewrite CopyTheorem.copyProperties_eq.
  destruct (entries other) as [|e l]; [assumption|].
  pose proof (wf_fold o other (e :: l) (entries o) [] false Ho) as H.
  unfold PropertyMap.t in *.
  destruct (fold_left _ _ _) as [[properties raised] changed]. exact H.
Qed.

Lemma wf_categories_addCategory o c :
  CategorySet.wf (categories o) -> CategorySet.wf (categories (fst (addCategory o c))).
Proof.
  intros H. destruct (CategorySet.has (categories o) c) eqn:E.
  - by rewrite CategoryFacts.addCategory_present.
  - rewrite CategoryFacts.addCategory_absent by assumption.
    by apply CategorySetFacts.wf_appended.
Qed.

Lemma wf_categories_deleteCategory o k :
  CategorySet.wf (categories o) ->
  CategorySet.wf (categories (snd (fst (deleteCategory o k)))).
Proof.
  intros H. destruct (deleteCategory o k) as [[r o'] raised] eqn:E.
  apply CategoryFacts.deleteCategory_event in E
    as [[_ ->]|(c & s & Hs & _ & _ & _ & Hs')]; [assumption|].
  simpl. unfold categories in *. rewrite Hs', Hs in *.
  by apply CategorySetFacts.wf_deleted.
Qed.

Lemma wf_categories_copyCategories o other :
  CategorySet.wf (categories o) ->
  CategorySet.wf (categories (snd (fst (copyCategories o other)))).
Proof.
  intros H. rewrite CopyCategoriesFacts.copyCategories_eq.
  destruct (categories other) as [|c l]; [assumption|].
  destruct (CopyCategoriesFacts.cfold_spec (c :: l) (categories o) [] false)
    as (added & Hfold & _ & _ & Hwf).
  unfold CategorySet.t in *. rewrite Hfold. simpl. by apply Hwf.
Qed.

Lemma distinct_constructor w c : distinct (constructor w c).
Proof.
  split.
  - unfold constructor. destruct c as [c|]; [|constructor].
    apply wf_categories_addCategory. constructor.
  - rewrite Preservation.entries_constructor. constructor.
Qed.

Lemma distinct_addCategory o c : distinct o -> distinct (fst (addCategory o c)).
Proof.
  intros [Hc Hp]. split; [by apply wf_categories_addCategory|].
  by rewrite Preservation.entries_addCategory.
Qed.

Lemma distinct_deleteCategory o k :
  distinct o -> distinct (snd (fst (deleteCategory o k))).
Proof.
  intros [Hc Hp]. split; [by apply wf_categories_deleteCategory|].
  by rewrite Preservation.entries_deleteCategory.
Qed.

Lemma distinct_set o k v : distinct o -> distinct (fst (set o k v)).
Proof.
  intros [Hc Hp]. split; [by rewrite categories_set|by apply wf_entries_set].
Qed.

Lemma distinct_delete o k : distinct o -> distinct (snd (fst (delete o k))).
Proof.
  intros [Hc Hp]. split; [by rewrite categories_delete|by apply wf_entries_delete].
Qed.

Lemma distinct_copyCategories o other :
  distinct o -> distinct (snd (fst (copyCategories o other))).
Proof.
  intros [Hc Hp]. split; [by apply wf_categories_copyCategories|].
  by rewrite Preservation.entries_copyCategories.
Qed.

Lemma distinct_copyProperties o other :
  distinct o -> distinct (snd (fst (copyProperties o other))).
Proof.
  intros [Hc Hp]. split; [by rewrite categories_copyProperties|].
  by apply wf_entries_copyProperties.
Qed.

Import Program.

Lemma commit_distinct st i r :
  distinct (fst r) -> all_distinct st -> all_distinct (commit st i r).
Proof. intros Hr H. unfold all_distinct, commit; simpl. by apply Forall_insert. Qed.

Lemma lookup_distinct st i this :
  all_distinct st -> fst st !! i = Some this -> distinct this.
Proof. intros H Hi. by eapply Forall_lookup_1. Qed.

Lemma call2_distinct st i j f :
  (forall this that, distinct this -> distinct (snd (fst (f this that)))) ->
  all_distinct st -> all_distinct (call2 st i j f).
Proof.
  intros Hf H. unfold call2.
  destruct (fst st !! i) as [this|] eqn:Ei; [|assumption].
  destruct (fst st !! j) as [that|] eqn:Ej; [|assumption].
  apply commit_distinct; [|assumption]. unfold drop_result; simpl.
  apply Hf. by eapply lookup_distinct.
Qed.

Lemma step_distinct st c : all_distinct st -> all_distinct (step st c).
Proof.
  intros H. destruct c; simpl;
    try (destruct (fst st !! o) as [this|] eqn:Ei; [|assumption];
         apply commit_distinct; [|assumption]; unfold drop_result; simpl;
         pose proof (lookup_distinct st o this H Ei) as Hthis).
  - unfold all_distinct; simpl. apply Forall_app. split; [assumption|].
    apply Forall_singleton. apply distinct_constructor.
  - exact Hthis.
  - by apply distinct_addCategory.
  - by apply distinct_deleteCategory.
  - by apply distinct_set.
  - by apply distinct_delete.
  - apply call2_distinct; [|assumption]. intros. by apply distinct_copyCategories.
  - apply call2_distinct; [|assumption]. intros. by apply distinct_copyProperties.
  - apply call2_distinct; [intros; by apply distinct_copyCategories|].
    apply call2_distinct; [|assumption]. intros. by apply distinct_copyProperties.
  - unfold GraphObject._setOwner. by repeat case_match.
Qed.

Lemma run_distinct calls : forall st, all_distinct st -> all_distinct (run st calls).
Proof.
  unfold run. induction calls as [|c calls IH]; intros st H; [assumption|].
  simpl. by apply IH, step_distinct.
Qed.
End DistinctFacts.

(** X4. Adding a category the object lacks raises one add event, makes
    the object one category larger and a second add a silent no-op;
    deleting it again returns [true], raises one delete event and brings
    the object back to the state it had. *)
Theorem addCategory_deleteCategory_round_trip
    (o : GraphObject.t) (c : GraphCategory.t) :
  CategorySet.has (GraphObject.categories o) c = false ->
  let o1 := fst (GraphObject.addCategory o c) in
  snd (GraphObject.addCategory o c)
    = [GraphObject.CategoryChanged GraphObject.ChangeAdd c]
  /\ GraphObject.categoryCount o1 = S (GraphObject.categoryCount o)
  /\ CategorySet.has (GraphObject.categories o1) c = true
  /\ GraphObject.addCategory o1 c = (o1, [])
  /\ exists o2,
      GraphObject.deleteCategory o1 (inr c)
        = (GraphObject.ReturnsBoolean true, o2,
           [GraphObject.CategoryChanged GraphObject.ChangeDelete c])
      /\ GraphObject.same_state o2 o.
Proof.
  intros Habsent o1. subst o1.
  rewrite CategoryFacts.addCategory_absent by assumption. simpl.
  assert (Hhas : CategorySet.has (GraphObject.categories o ++ [c]) c = true).
  { rewrite CategorySetFacts.has_append. simpl.
    rewrite CategorySetFacts.csame_refl. apply orb_true_r. }
  split; [reflexivity|]. split.
  { rewrite !ObservationFacts.categoryCount_categories.
    change (GraphObject.categories
              (GraphObject.with_categories o (Some (GraphObject.categories o ++ [c]))))
      with (GraphObject.categories o ++ [c]).
    unfold CategorySet.size. rewrite length_app. apply Nat.add_1_r. }
  split; [exact Hhas|]. split.
  { by apply CategoryFacts.addCategory_present. }
  eexists. split.
  - unfold GraphObject.deleteCategory. simpl. rewrite Hhas. reflexivity.
  - repeat split. simpl. by apply CategorySetFacts.delete_appended.
Qed.

Lemma addCategory_deleteCategory_round_trip_witness :
  GraphObject.categoryCount (fst (GraphObject.addCategory Examples.owned Examples.rootShape))
  = 2%nat.
Proof.
  destruct (addCategory_deleteCategory_round_trip Examples.owned Examples.rootShape)
    as (_ & H & _); [reflexivity|].
  exact H.
Defined.

(** X5. No call makes an object hold a category or a property twice: if
    every object of the store has pairwise distinct categories and
    pairwise distinct property keys, so has every object after any
    sequence of calls; in particular every object of a program started
    from nothing. *)
Theorem collections_stay_distinct (st : Program.State) (calls : list Program.Call) :
  Program.all_distinct st ->
  Program.all_distinct (Program.run st calls)
  /\ Program.all_distinct (Program.run Program.initial calls).
Proof.
  intros H. split; apply DistinctFacts.run_distinct; [assumption|constructor].
Qed.

Lemma collections_stay_distinct_witness :
  Program.all_distinct
    (Program.run ([Examples.source; Examples.target], [])
       [Program.CopyProperties 1 0;
        Program.AddCategory 1 Examples.base;
        Program.CopyCategories 0 1;
        Program.AddCategory 0 Examples.base;
        Program.Set_ 0 (inr Examples.count) (num 8)]).
Proof.
  apply (collections_stay_distinct ([Examples.source; Examples.target], [])).
  unfold Program.all_distinct. simpl.
  repeat constructor; simpl; try (by intros [=]%list_elem_of_singleton);
    try (by intros H%elem_of_nil).
Defined.

(** X6. [copyCategories] appends to the receiver exactly the categories
    of the other object that the receiver lacks, in the other object's
    iteration order, raising one add event for each in that order;
    afterwards the receiver has every category of the other object; the
    result tells whether any was added; properties, owner and subscribers
    are untouched; and copying again changes nothing, raises nothing and
    returns [false]. *)
Theorem copyCategories_adds_missing (Y X : GraphObject.t) :
  CategorySet.wf (GraphObject.categories X) ->
  let added :=
    List.filter (fun c => negb (CategorySet.has (GraphObject.categories Y) c))
      (GraphObject.categories X) in
  exists Y',
    GraphObject.copyCategories Y X
    = (negb (Nat.eqb (length added) 0), Y',
       map (GraphObject.CategoryChanged GraphObject.ChangeAdd) added)
    /\ GraphObject.categories Y' = GraphObject.categories Y ++ added
    /\ (forall c, In c (GraphObject.categories X) ->
          CategorySet.has (GraphObject.categories Y') c = true)
    /\ GraphObject.entries Y' = GraphObject.entries Y
    /\ GraphObject._owner Y' = GraphObject._owner Y
    /\ GraphObject._observers Y' = GraphObject._observers Y
    /\ GraphObject.copyCategories Y' X = (false, Y', []).
Proof.
  intros Hwf added. subst added.
  rewrite CopyCategoriesFacts.copyCategories_eq.
  destruct (GraphObject.categories X) as [|c l] eqn:E.
  - exists Y. simpl. rewrite app_nil_r.
    repeat split; [intros c []|].
    by rewrite CopyCategoriesFacts.copyCategories_eq, E.
  - pose proof (CopyCategoriesFacts.cfold_filter (c :: l) Hwf
                  (GraphObject.categories Y) [] false) as Hfold.
    pose proof (CopyCategoriesFacts.has_after_filter
                  (GraphObject.categories Y) (c :: l)) as Hall.
    cbv zeta in Hfold.
    set (added := List.filter _ (c :: l)) in *.
    exists (GraphObject.with_categories Y (Some (GraphObject.categories Y ++ added))).
    unfold CategorySet.t in *. rewrite Hfold. simpl.
    repeat split; [exact Hall|].
    rewrite CopyCategoriesFacts.copyCategories_eq, E.
    unfold CategorySet.t in *.
    rewrite CopyCategoriesFacts.cfold_noop by exact Hall.
    reflexivity.
Qed.

Lemma copyCategories_adds_missing_witness :
  exists Y',
    GraphObject.copyCategories
      (fst (GraphObject.addCategory Examples.detached Examples.base))
      (fst (GraphObject.addCategory Examples.owned Examples.base))
    = (true, Y', [GraphObject.CategoryChanged GraphObject.ChangeAdd Examples.derived])
    /\ GraphObject.categories Y' = [Examples.base; Examples.derived].
Proof.
  destruct (copyCategories_adds_missing
              (fst (GraphObject.addCategory Examples.detached Examples.base))
              (fst (GraphObject.addCategory Examples.owned Examples.base)))
    as (Y' & Heq & Hcats & _).
  { unfold CategorySet.wf. simpl.
    apply NoDup_cons. split; [by intros [=]%list_elem_of_singleton|].
    apply NoDup_singleton. }
  exists Y'. split; [exact Heq|exact Hcats].
Defined.

(** ** Copying twice, copying onto oneself, merging *)
Module RepeatedCopyFacts.
Import GraphObject.

Lemma fold_noop this other theirs properties raised changed :
  (forall e, In e theirs -> writes_in this other properties e = false) ->
  fold_left (copyProperties_step this other) theirs (properties, raised, changed)
  = (properties, raised, changed).
Proof.
  induction theirs as [|e rest IH]; intros H; [reflexivity|].
  cbn [fold_left]. rewrite CopyFacts.step_eq, (H e) by (by left).
  apply IH. intros d Hd. apply H. by right.
Qed.

Lemma get_member m p v : PropertyMap.wf m -> In (p, v) m -> PropertyMap.get m p = v.
Proof.
  unfold PropertyMap.wf. induction m as [|[k w] m IH]; simpl; [tauto|].
  intros Hnd. apply NoDup_cons in Hnd as [Hk Hm]. intros [[= -> ->]|Hin].
  - by rewrite PropertyMapFacts.same_refl.
  - destruct (GraphProperty.same k p) eqn:E; [|by apply IH].
    exfalso. apply Hk. apply PropertyMapFacts.same_true in E. rewrite E.
    apply list_elem_of_In.
    by apply (in_map (fun e => GraphProperty.ref_ (fst e)) m (p, v)).
Qed.

Lemma entries_allocated o e l : entries o = e :: l -> _properties o = Some (e :: l).
Proof. unfold entries. destruct (_properties o); [by intros ->|discriminate]. Qed.

Lemma settled_noop Y X :
  settled_for Y X ->
  copyProperties Y X
  = (false,
     match entries X with
     | [] => Y
     | _ :: _ => with_properties Y (Some (entries Y))
     end,
     []).
Proof.
  intros H. unfold settled_for in H. rewrite CopyTheorem.copyProperties_eq.
  destruct (entries X) as [|e l] eqn:E; [reflexivity|].
  unfold PropertyMap.t in *. rewrite fold_noop; [reflexivity|].
  intros d Hd. apply (H d Hd).
Qed.

Lemma settled_transfer Y Z X :
  _owner Z = _owner Y -> entries Z = entries Y ->
  settled_for Y X -> settled_for Z X.
Proof.
  intros Ho He H e Hin. specialize (H e Hin).
  unfold copy_writes, ownValue, importMetadata in *. by rewrite Ho, He.
Qed.

Lemma writes_in_owner Y Z X m e :
  _owner Z = _owner Y -> writes_in Z X m e = writes_in Y X m e.
Proof. intros Ho. unfold writes_in, importMetadata. by rewrite Ho. Qed.

Lemma copy_settles Y X :
  wf X -> no_nan X -> settled_for (snd (fst (copyProperties Y X))) X.
Proof.
  intros Hwf Hnan.
  destruct (CopyTheorem.copyProperties_fold Y X Hwf) as (properties' & Heq & Hin & _).
  rewrite Heq. simpl. intros e He.
  unfold no_nan, PropertyMap.no_nan in Hnan. rewrite List.Forall_forall in Hnan.
  specialize (Hnan e He).
  destruct (entries X) as [|e0 l] eqn:E; [destruct He|].
  specialize (Hin e He).
  change (writes_in (with_properties Y (Some properties')) X properties' e = false).
  rewrite (writes_in_owner Y) by reflexivity.
  unfold writes_in. rewrite Hin.
  destruct (copy_writes Y X e) eqn:Ew.
  - by rewrite strict_eq_refl.
  - exact Ew.
Qed.

Lemma self_settled Y : wf Y -> no_nan Y -> settled_for Y Y.
Proof.
  intros Hwf Hnan [p v] Hin. unfold copy_writes, ownValue. simpl.
  unfold no_nan, PropertyMap.no_nan in Hnan. rewrite List.Forall_forall in Hnan.
  specialize (Hnan (p, v) Hin). simpl in Hnan.
  by rewrite (get_member _ _ _ Hwf Hin), strict_eq_refl.
Qed.

Lemma copyCategories_other Y X X' :
  _categories X = _categories X' -> copyCategories Y X = copyCategories Y X'.
Proof. unfold copyCategories. by intros ->. Qed.

Lemma _categories_copyProperties Y X :
  _categories (snd (fst (copyProperties Y X))) = _categories Y.
Proof.
  rewrite CopyTheorem.copyProperties_eq.
  destruct (entries X); [reflexivity|].
  unfold PropertyMap.t in *.
  by destruct (fold_left _ _ _) as [[properties raised] changed].
Qed.
End RepeatedCopyFacts.

Module MergeFacts.
Import GraphObject.

Lemma settled_same Z X :
  settled_for Z X ->
  (entries X <> [] -> exists m, _properties Z = Some m) ->
  copyProperties Z X = (false, Z, []).
Proof.
  intros Hs Hm. rewrite RepeatedCopyFacts.settled_noop by assumption.
  destruct (entries X) as [|e l]; [reflexivity|].
  destruct Hm as [m Hm]; [discriminate|].
  unfold entries. rewrite Hm. by rewrite SetFacts.allocated_id.
Qed.

Lemma copyProperties_allocates Y X :
  entries X <> [] -> exists m, _properties (snd (fst (copyProperties Y X))) = Some m.
Proof.
  intros H. rewrite CopyTheorem.copyProperties_eq.
  destruct (entries X) as [|e l]; [congruence|].
  unfold PropertyMap.t in *.
  destruct (fold_left _ _ _) as [[properties raised] changed]. simpl. eauto.
Qed.

Lemma _properties_copyCategories Y X :
  _properties (snd (fst (copyCategories Y X))) = _properties Y.
Proof.
  rewrite CopyCategoriesFacts.copyCategories_eq.
  destruct (categories X); [reflexivity|].
  unfold CategorySet.t in *.
  by destruct (fold_left _ _ _) as [[cats raised] changed].
Qed.

Lemma copyCategories_again Y X :
  copyCategories (snd (fst (copyCategories Y X))) X
  = (false, snd (fst (copyCategories Y X)), []).
Proof.
  rewrite (CopyCategoriesFacts.copyCategories_eq Y X).
  destruct (categories X) as [|c l] eqn:E.
  - simpl. by rewrite CopyCategoriesFacts.copyCategories_eq, E.
  - destruct (CopyCategoriesFacts.cfold_spec (c :: l) (categories Y) [] false)
      as (added & Hfold & _ & Hall & _).
    unfold CategorySet.t in *. rewrite Hfold. simpl.
    rewrite CopyCategoriesFacts.copyCategories_eq, E.
    unfold CategorySet.t in *.
    rewrite CopyCategoriesFacts.cfold_noop by exact Hall.
    reflexivity.
Qed.

(** What [copyCategories] reports and raises depends on the receiver's
    categories only. *)
Lemma copyCategories_receiver Y Z X :
  _categories Y = _categories Z ->
  fst (fst (copyCategories Y X)) = fst (fst (copyCategories Z X))
  /\ snd (copyCategories Y X) = snd (copyCategories Z X).
Proof.
  intros H. unfold copyCategories. rewrite H.
  destruct (_categories X) as [theirs|]; [|by split].
  destruct (Nat.eqb _ 0); [by split|].
  by destruct (fold_left _ _ _) as [[cats raised] changed].
Qed.

Lemma _mergeFrom_eq Y X :
  _mergeFrom Y X =
  (fst (fst (copyProperties Y X))
   || fst (fst (copyCategories (snd (fst (copyProperties Y X))) X)),
   snd (fst (copyCategories (snd (fst (copyProperties Y X))) X)),
   snd (copyProperties Y X) ++ snd (copyCategories (snd (fst (copyProperties Y X))) X)).
Proof.
  unfold _mergeFrom.
  destruct (copyProperties Y X) as [[c1 Y1] r1]. simpl.
  by destruct (copyCategories Y1 X) as [[c2 Y2] r2].
Qed.
End MergeFacts.

(** X7. [copyProperties] settles in one pass when no [NaN] is involved:
    for a source with distinct keys that holds no [NaN], copying the same
    source again returns [false], raises nothing and leaves the receiver
    exactly as the first copy left it; and an object with distinct keys
    that holds no [NaN], copied onto itself, is left as it is. *)
Theorem copyProperties_settles (Y X : GraphObject.t) :
  (GraphObject.wf X -> GraphObject.no_nan X ->
   GraphObject.copyProperties (snd (fst (GraphObject.copyProperties Y X))) X
   = (false, snd (fst (GraphObject.copyProperties Y X)), []))
  /\ (GraphObject.wf Y -> GraphObject.no_nan Y ->
      GraphObject.copyProperties Y Y = (false, Y, [])).
Proof.
  split; intros Hwf Hnan.
  - apply MergeFacts.settled_same.
    + by apply RepeatedCopyFacts.copy_settles.
    + apply MergeFacts.copyProperties_allocates.
  - apply MergeFacts.settled_same.
    + by apply RepeatedCopyFacts.self_settled.
    + intros H. destruct (GraphObject.entries Y) as [|e l] eqn:E; [congruence|].
      apply RepeatedCopyFacts.entries_allocated in E. eauto.
Qed.

Lemma copyProperties_settles_witness :
  GraphObject.copyProperties
    (snd (fst (GraphObject.copyProperties Examples.target Examples.source)))
    Examples.source
  = (false, snd (fst (GraphObject.copyProperties Examples.target Examples.source)), []).
Proof.
  apply (copyProperties_settles Examples.target Examples.source).
  - unfold GraphObject.wf, PropertyMap.wf. simpl.
    apply NoDup_cons. split; [by intros [=]%list_elem_of_singleton|].
    apply NoDup_singleton.
  - unfold GraphObject.no_nan, PropertyMap.no_nan. simpl.
    repeat constructor; discriminate.
Defined.

(** X8. [_mergeFrom] is [copyProperties] followed by [copyCategories]: it
    reports a change when either does, and raises the property events,
    then the category events, each as the single copy on the receiver
    would. Run on a store, the two copies one after the other give what
    [_mergeFrom] computes from the two objects as they were, also when
    the receiver and the argument are the same object. For a source with
    distinct keys that holds no [NaN], merging it a second time changes
    nothing. *)
Theorem mergeFrom_is_both_copies :
  (forall Y X,
     fst (fst (GraphObject._mergeFrom Y X))
       = fst (fst (GraphObject.copyProperties Y X))
         || fst (fst (GraphObject.copyCategories Y X))
     /\ snd (GraphObject._mergeFrom Y X)
        = snd (GraphObject.copyProperties Y X) ++ snd (GraphObject.copyCategories Y X))
  /\ (forall st i j,
        Program.step st (Program.MergeFrom i j)
        = Program.call2 st i j GraphObject._mergeFrom)
  /\ (forall Y X,
        GraphObject.wf X -> GraphObject.no_nan X ->
        GraphObject._mergeFrom (snd (fst (GraphObject._mergeFrom Y X))) X
        = (false, snd (fst (GraphObject._mergeFrom Y X)), [])).
Proof.
  split; [|split].
  - intros Y X. rewrite MergeFacts._mergeFrom_eq. simpl.
    destruct (MergeFacts.copyCategories_receiver
                (snd (fst (GraphObject.copyProperties Y X))) Y X) as [Hc Hr].
    { apply RepeatedCopyFacts._categories_copyProperties. }
    by rewrite Hc, Hr.
  - intros [store log] i j. simpl. unfold Program.call2 at 2. simpl.
    destruct (store !! i) as [this|] eqn:Ei;
      [|unfold Program.call2; simpl; by rewrite Ei].
    destruct (store !! j) as [that|] eqn:Ej;
      [|unfold Program.call2; simpl; by rewrite Ei, Ej].
    unfold Program.call2, Program.commit, Program.drop_result. simpl.
    rewrite Ei, Ej. simpl. unfold Program.Store in *.
    rewrite list_lookup_insert_eq by (by eapply lookup_lt_Some).
    assert (Hthat :
      forall this1,
        GraphObject._categories this1 = GraphObject._categories this ->
        match <[i:=this1]> store !! j with
        | Some that' => GraphObject.copyCategories this1 that' = GraphObject.copyCategories this1 that
        | None => False
        end).
    { intros this1 H1. destruct (decide (i = j)) as [->|Hne].
      - rewrite list_lookup_insert_eq by (by eapply lookup_lt_Some).
        apply RepeatedCopyFacts.copyCategories_other. congruence.
      - rewrite list_lookup_insert_ne by assumption. by rewrite Ej. }
    specialize (Hthat _ (RepeatedCopyFacts._categories_copyProperties this that)).
    destruct (<[i:=_]> store !! j) as [that'|]; [|destruct Hthat].
    rewrite Hthat, MergeFacts._mergeFrom_eq. simpl.
    by rewrite list_insert_insert_eq, map_app, app_assoc.
  - intros Y X Hwf Hnan. rewrite (MergeFacts._mergeFrom_eq Y X). simpl.
    set (Y1 := snd (fst (GraphObject.copyProperties Y X))).
    set (Y2 := snd (fst (GraphObject.copyCategories Y1 X))).
    assert (H1 : GraphObject.copyProperties Y2 X = (false, Y2, [])).
    { apply MergeFacts.settled_same.
      - apply (RepeatedCopyFacts.settled_transfer Y1).
        + apply Preservation.owner_copyCategories.
        + apply Preservation.entries_copyCategories.
        + by apply RepeatedCopyFacts.copy_settles.
      - intros HX. unfold Y2. rewrite MergeFacts._properties_copyCategories.
        by apply MergeFacts.copyProperties_allocates. }
    rewrite MergeFacts._mergeFrom_eq, H1. simpl.
    unfold Y2. by rewrite MergeFacts.copyCategories_again.
Qed.

(** ** Reading after writing *)
Module ReadWriteFacts.
Import GraphObject.

Lemma get_congr a b Q :
  _owner a = _owner b -> categories a = categories b ->
  ownValue a Q = ownValue b Q ->
  get a (inr Q) = get b (inr Q).
Proof.
  intros Ho Hc Hv. rewrite !GetFacts.get_unfold. unfold inheritedValue.
  by rewrite !ObservationFacts._find_categories, Ho, Hc, Hv.
Qed.


Lemma ownValue_delete_other o P Q :
  GraphProperty.same P Q = false ->
  ownValue (snd (fst (delete o (inr P)))) Q = ownValue o Q.
Proof.
  intros HPQ. rewrite SetFacts.delete_unfold.
  repeat (case_match; try reflexivity). simpl. unfold ownValue.
  rewrite SetFacts.entries_with_properties.
  by apply PropertyMapFacts.get_delete_other.
Qed.

Lemma ownValue_set_other o P Q v :
  GraphProperty.same P Q = false ->
  ownValue (fst (set o (inr P) v)) Q = ownValue o Q.
Proof.
  intros HPQ. destruct (decide (v = undefined)) as [->|Hv].
  - rewrite SetFacts.set_undefined. by apply ownValue_delete_other.
  - rewrite SetFacts.set_unfold by assumption. simpl.
    repeat (case_match; try reflexivity). simpl. unfold ownValue.
    rewrite SetFacts.entries_with_properties.
    by apply PropertyMapFacts.get_set_other.
Qed.

Lemma hasOwn_with o m P :
  hasOwn (with_properties o (Some m)) (inr P) = PropertyMap.has m P.
Proof. reflexivity. Qed.
End ReadWriteFacts.



(** X10. [set] and [delete] on one property leave every other property
    alone: for a different property object, what the object stores for it
    and what [get] returns for it are as before, whatever the value and
    the outcome of the call. *)
Theorem set_delete_frame (o : GraphObject.t) (P Q : GraphProperty.t) (v : any) :
  GraphProperty.same P Q = false ->
  GraphObject.ownValue (fst (GraphObject.set o (inr P) v)) Q = GraphObject.ownValue o Q
  /\ GraphObject.get (fst (GraphObject.set o (inr P) v)) (inr Q) = GraphObject.get o (inr Q)
  /\ GraphObject.ownValue (snd (fst (GraphObject.delete o (inr P)))) Q
     = GraphObject.ownValue o Q
  /\ GraphObject.get (snd (fst (GraphObject.delete o (inr P)))) (inr Q)
     = GraphObject.get o (inr Q).
Proof.
  intros HPQ.
  pose proof (ReadWriteFacts.ownValue_set_other o P Q v HPQ) as Hs.
  pose proof (ReadWriteFacts.ownValue_delete_other o P Q HPQ) as Hd.
  repeat split; try assumption.
  - apply ReadWriteFacts.get_congr; [apply Preservation.owner_set| |assumption].
    apply DistinctFacts.categories_set.
  - apply ReadWriteFacts.get_congr; [apply Preservation.owner_delete| |assumption].
    apply DistinctFacts.categories_delete.
Qed.

Lemma set_delete_frame_witness :
  GraphObject.get (fst (GraphObject.set Examples.source (inr Examples.count) (num 8)))
    (inr Examples.fixed)
  = GraphObject.get Examples.source (inr Examples.fixed).
Proof.
  apply (set_delete_frame Examples.source Examples.count Examples.fixed (num 8)).
  reflexivity.
Defined.

(** X11. Setting a property the object does not store and deleting it
    again is a round trip: when the write is accepted and the property is
    removable, [delete] returns [true], raises one property-changed event
    and leaves the object in the state it had before the [set]. *)
Theorem set_delete_round_trip (o : GraphObject.t) (P : GraphProperty.t) (v : any) :
  v <> undefined ->
  GraphObject.hasOwn o (inr P) = false ->
  GraphObject.set_refused o P v = false ->
  GraphMetadata.isRemovable (GraphObject.resolveMetadata o P) = true ->
  GraphObject.hasOwn (fst (GraphObject.set o (inr P) v)) (inr P) = true
  /\ exists o2,
      GraphObject.delete (fst (GraphObject.set o (inr P) v)) (inr P)
        = (true, o2, [GraphObject.PropertyChanged (GraphProperty.id P)])
      /\ GraphObject.same_state o2 o.
Proof.
  intros Hv Hhas Href Hrem.
  assert (Hown : GraphObject.ownValue o P = undefined).
  { apply PropertyMapFacts.has_false_get. by rewrite <- GetFacts.hasOwn_entries. }
  rewrite SetFacts.set_unfold by assumption. simpl.
  unfold GraphObject.set_refused in Href. rewrite Hown in *.
  apply orb_false_iff in Href as [H1 H2]. rewrite H1, H2.
  rewrite (strict_eq_neq _ _ Hv). simpl.
  rewrite ReadWriteFacts.hasOwn_with, PropertyMapFacts.has_set_same.
  split; [reflexivity|]. eexists. split.
  - rewrite SetFacts.delete_unfold, ReadWriteFacts.hasOwn_with,
      PropertyMapFacts.has_set_same. simpl.
    change (GraphObject.resolveMetadata (GraphObject.with_properties o _) P)
      with (GraphObject.resolveMetadata o P).
    rewrite Hrem. simpl. reflexivity.
  - repeat split. simpl.
    apply PropertyMapFacts.delete_set_fresh. by rewrite <- GetFacts.hasOwn_entries.
Qed.

Lemma set_delete_round_trip_witness :
  exists o2,
    GraphObject.delete (fst (GraphObject.set Examples.owned (inr Examples.count) (num 4)))
      (inr Examples.count)
    = (true, o2, [GraphObject.PropertyChanged "count"])
    /\ GraphObject.same_state o2 Examples.owned.
Proof.
  apply (set_delete_round_trip Examples.owned Examples.count (num 4));
    [discriminate|reflexivity|reflexivity|reflexivity].
Defined.

(** ** Keys given by id, counts, subscribers *)
Module KeyFacts.
Import GraphObject.

Lemma get_key o k :
  get o k = match resolveProperty o k with Some P => get o (inr P) | None => undefined end.
Proof. unfold get. by destruct (resolveProperty o k). Qed.

Lemma has_key o k :
  has o k = match resolveProperty o k with Some P => has o (inr P) | None => false end.
Proof. unfold has. by destruct (resolveProperty o k). Qed.

Lemma hasOwn_key o k :
  hasOwn o k = match resolveProperty o k with Some P => hasOwn o (inr P) | None => false end.
Proof. unfold hasOwn. by destruct (resolveProperty o k). Qed.

Lemma deleteCategory_key o k :
  snd (fst (deleteCategory o k))
  = match resolveCategory o k with
    | Some c => snd (fst (deleteCategory o (inr c)))
    | None => o
    end
  /\ snd (deleteCategory o k)
     = match resolveCategory o k with
       | Some c => snd (deleteCategory o (inr c))
       | None => []
       end.
Proof.
  unfold deleteCategory. destruct (resolveCategory o k) as [c|]; [|by split].
  simpl. destruct (_categories o) as [s|]; [|by split].
  by destruct (CategorySet.has s c).
Qed.

Lemma size_set m p v :
  PropertyMap.size (PropertyMap.set m p v)
  = if PropertyMap.has m p then PropertyMap.size m else S (PropertyMap.size m).
Proof.
  unfold PropertyMap.size. induction m as [|[k w] m IH]; simpl; [reflexivity|].
  destruct (GraphProperty.same k p); simpl; [reflexivity|].
  rewrite IH. by destruct (PropertyMap.has m p).
Qed.

Lemma size_delete m p :
  PropertyMap.size (PropertyMap.delete m p)
  = if PropertyMap.has m p then pred (PropertyMap.size m) else PropertyMap.size m.
Proof.
  unfold PropertyMap.size. induction m as [|[k w] m IH]; simpl; [reflexivity|].
  destruct (GraphProperty.same k p); simpl; [reflexivity|].
  rewrite IH. destruct (PropertyMap.has m p) eqn:E; [|reflexivity].
  destruct m; [discriminate|reflexivity].
Qed.

Lemma filter_all {A} (f : A -> bool) l :
  (forall x, In x l -> f x = true) -> List.filter f l = l.
Proof.
  induction l as [|x l IH]; simpl; intros H; [reflexivity|].
  rewrite (H x) by tauto. f_equal. apply IH. intros y Hy. apply H. tauto.
Qed.

Lemma filter_comm {A} (f g : A -> bool) l :
  List.filter f (List.filter g l) = List.filter g (List.filter f l).
Proof.
  induction l as [|x l IH]; simpl; [reflexivity|].
  destruct (f x) eqn:Ef, (g x) eqn:Eg; simpl; rewrite ?Ef, ?Eg, IH; reflexivity.
Qed.

Lemma deliver_unsubscribe o s ev :
  deliver (unsubscribe o s) ev
  = List.filter (fun d => negb (Nat.eqb (fst d) s)) (deliver o ev).
Proof.
  unfold deliver, unsubscribe.
  destruct (_observers o) as [observers|] eqn:E; simpl; [|by rewrite E].
  rewrite filter_comm.
  generalize (List.filter (fun o0 => listens ev (snd o0)) observers) as l.
  induction l as [|[s0 evs] l IH]; simpl; [reflexivity|].
  destruct (Nat.eqb s0 s); simpl; [|f_equal]; apply IH.
Qed.
End KeyFacts.

(** X12. A key given by id is looked up in the owner's schema, by
    [findProperty] or [findCategory], and the method then acts as on what
    was found: [get], [has], [hasOwn], [set] and [delete] by id are the
    same call on the property found, and [deleteCategory] by id changes
    the object and raises what the call on the category found does,
    returning the category when it was removed and [false] when the
    object did not have it. When the lookup finds nothing, as for every
    id on an object without owner, [get] returns [undefined], [has] and
    [hasOwn] return [false], [set] and [delete] change and raise nothing,
    and [deleteCategory] returns [undefined]. The lookup is the self-first,
    depth-first search of the owner's schema tree. *)
Theorem id_keys_resolve_once (o : GraphObject.t) (id : string) :
  let found :=
    match GraphObject._owner o with
    | Some g => GraphSchema.findProperty (Graph.schema g) id
    | None => None
    end in
  let foundCategory :=
    match GraphObject._owner o with
    | Some g => GraphSchema.findCategory (Graph.schema g) id
    | None => None
    end in
  (forall P, found = Some P ->
     GraphObject.get o (inl id) = GraphObject.get o (inr P)
     /\ GraphObject.has o (inl id) = GraphObject.has o (inr P)
     /\ GraphObject.hasOwn o (inl id) = GraphObject.hasOwn o (inr P)
     /\ (forall v, GraphObject.set o (inl id) v = GraphObject.set o (inr P) v)
     /\ GraphObject.delete o (inl id) = GraphObject.delete o (inr P))
  /\ (found = None ->
      GraphObject.get o (inl id) = undefined
      /\ GraphObject.has o (inl id) = false
      /\ GraphObject.hasOwn o (inl id) = false
      /\ (forall v, GraphObject.set o (inl id) v = (o, []))
      /\ GraphObject.delete o (inl id) = (false, o, []))
  /\ (forall c, foundCategory = Some c ->
        GraphObject.deleteCategory o (inl id)
        = (if CategorySet.has (GraphObject.categories o) c
           then GraphObject.ReturnsCategory c
           else GraphObject.ReturnsBoolean false,
           snd (fst (GraphObject.deleteCategory o (inr c))),
           snd (GraphObject.deleteCategory o (inr c))))
  /\ (foundCategory = None ->
      GraphObject.deleteCategory o (inl id) = (GraphObject.ReturnsUndefined, o, []))
  /\ found
     = match GraphObject._owner o with
       | Some g => GraphSchema.searchProperty (Graph.schema g) id
       | None => None
       end
  /\ foundCategory
     = match GraphObject._owner o with
       | Some g => GraphSchema.search (Graph.schema g) id
       | None => None
       end.
Proof.
  intros found foundCategory.
  assert (HP : GraphObject.resolveProperty o (inl id) = found).
  { unfold GraphObject.resolveProperty, GraphObject.schema, found.
    by destruct (GraphObject._owner o). }
  assert (HC : GraphObject.resolveCategory o (inl id) = foundCategory).
  { unfold GraphObject.resolveCategory, GraphObject.schema, foundCategory.
    by destruct (GraphObject._owner o). }
  clearbody found foundCategory.
  split; [|split; [|split; [|split; [|split]]]].
  - intros P Hfound. rewrite Hfound in HP.
    rewrite KeyFacts.get_key, KeyFacts.has_key, KeyFacts.hasOwn_key,
      SetFacts.delete_key, HP.
    repeat split. intros v. by rewrite SetFacts.set_key, HP.
  - intros Hnone. rewrite Hnone in HP.
    rewrite KeyFacts.get_key, KeyFacts.has_key, KeyFacts.hasOwn_key,
      SetFacts.delete_key, HP.
    repeat split. intros v. by rewrite SetFacts.set_key, HP.
  - intros c Hc. rewrite Hc in HC.
    unfold GraphObject.deleteCategory. rewrite HC. simpl.
    unfold GraphObject.categories.
    destruct (GraphObject._categories o) as [s|]; [|reflexivity].
    by destruct (CategorySet.has s c).
  - intros Hnone. rewrite Hnone in HC.
    by apply CategoryFacts.deleteCategory_unresolved_id.
  - subst found. unfold GraphObject.resolveProperty, GraphObject.schema.
    destruct (GraphObject._owner o) as [g|]; [|reflexivity].
    apply SchemaTreeFacts.property_loop_search.
  - subst foundCategory. unfold GraphObject.resolveCategory, GraphObject.schema.
    destruct (GraphObject._owner o) as [g|]; [|reflexivity].
    apply SchemaLookup.loop_search.
Qed.

Example deleteCategory_by_id :
  GraphObject.deleteCategory
    (fst (GraphObject.addCategory Examples.ownedPlain Examples.rootShape)) (inl "shape")
  = (GraphObject.ReturnsCategory Examples.rootShape,
     GraphObject.with_categories Examples.ownedPlain (Some []),
     [GraphObject.CategoryChanged GraphObject.ChangeDelete Examples.rootShape]).
Proof. reflexivity. Qed.

(** X13. [propertyCount] follows the writes: a [set] of a value other
    than [undefined] makes it one larger exactly when the object stored
    nothing for the property and the write was not refused, and leaves it
    as it is otherwise; [delete] makes it one smaller exactly when it
    returns [true]; and it is the length of [keys()], [values()] and
    [entries()]. *)
Theorem propertyCount_follows_writes (o : GraphObject.t) (P : GraphProperty.t) (v : any) :
  v <> undefined ->
  GraphObject.propertyCount (fst (GraphObject.set o (inr P) v))
    = (if GraphObject.hasOwn o (inr P) || GraphObject.set_refused o P v
       then GraphObject.propertyCount o
       else S (GraphObject.propertyCount o))
  /\ GraphObject.propertyCount (snd (fst (GraphObject.delete o (inr P))))
     = (if fst (fst (GraphObject.delete o (inr P)))
        then pred (GraphObject.propertyCount o)
        else GraphObject.propertyCount o)
  /\ GraphObject.propertyCount o = length (GraphObject.keys o)
  /\ GraphObject.propertyCount o = length (GraphObject.values o)
  /\ GraphObject.propertyCount o = length (GraphObject.entries o).
Proof.
  intros Hv. split; [|split].
  - rewrite SetFacts.set_unfold by assumption. unfold GraphObject.set_refused. simpl.
    rewrite !ObservationFacts.propertyCount_entries, GetFacts.hasOwn_entries.
    destruct (strict_eq v (GraphObject.ownValue o P)) eqn:E.
    + apply strict_eq_eq in E. simpl.
      rewrite (PropertyMapFacts.get_has (GraphObject.entries o) P); [reflexivity|].
      unfold GraphObject.ownValue in E. congruence.
    + destruct (negb (is_undefined (GraphObject.ownValue o P))
                && GraphMetadata.isImmutable (GraphObject.resolveMetadata o P)) eqn:E1;
        simpl; [by rewrite orb_true_r|].
      destruct (GraphMetadata.canValidate (GraphObject.resolveMetadata o P)
                && negb (GraphMetadata.validate (GraphObject.resolveMetadata o P) v)) eqn:E2;
        simpl; [by rewrite orb_true_r|].
      rewrite orb_false_r, SetFacts.entries_with_properties, KeyFacts.size_set.
      reflexivity.
  - rewrite SetFacts.delete_unfold, !ObservationFacts.propertyCount_entries.
    rewrite GetFacts.hasOwn_entries.
    destruct (PropertyMap.has (GraphObject.entries o) P) eqn:E; simpl; [|reflexivity].
    destruct (negb _); simpl; [reflexivity|].
    by rewrite SetFacts.entries_with_properties, KeyFacts.size_delete, E.
  - rewrite ObservationFacts.propertyCount_entries, ObservationFacts.keys_entries,
      ObservationFacts.values_entries, !length_map. by repeat split.
Qed.

Lemma propertyCount_follows_writes_witness :
  GraphObject.propertyCount
    (fst (GraphObject.set Examples.source (inr Examples.locked) (num 1))) = 2%nat
  /\ GraphObject.propertyCount
       (fst (GraphObject.set Examples.detached (inr Examples.count) (num 1))) = 1%nat.
Proof.
  split.
  - destruct (propertyCount_follows_writes Examples.source Examples.locked (num 1))
      as [H _]; [discriminate|exact H].
  - destruct (propertyCount_follows_writes Examples.detached Examples.count (num 1))
      as [H _]; [discriminate|exact H].
Defined.

(** X14. Subscribing with a fresh handle adds one recipient, last in
    delivery order, for the events whose handler it supplied, and leaves
    the deliveries to the others as they were; after [unsubscribe] no
    event reaches that handle, the others receive what they received, and
    a second [unsubscribe] changes nothing. *)
Theorem subscribe_unsubscribe
    (o : GraphObject.t) (s : ref) (events : GraphObject.GraphObjectEvents)
    (ev : GraphObject.Event) :
  ~ In s (GraphObject.subscriptions o) ->
  GraphObject.deliver (GraphObject.subscribe o s events) ev
    = GraphObject.deliver o ev
      ++ (if GraphObject.listens ev events then [(s, ev)] else [])
  /\ GraphObject.deliver (GraphObject.unsubscribe (GraphObject.subscribe o s events) s) ev
     = GraphObject.deliver o ev
  /\ (forall o' d, In d (GraphObject.deliver (GraphObject.unsubscribe o' s) ev) -> fst d <> s)
  /\ (forall o' s' d, s' <> s -> fst d = s' ->
        In d (GraphObject.deliver (GraphObject.unsubscribe o' s) ev)
        <-> In d (GraphObject.deliver o' ev))
  /\ (forall o', GraphObject.unsubscribe (GraphObject.unsubscribe o' s) s
                 = GraphObject.unsubscribe o' s).
Proof.
  intros Hfresh.
  assert (Hsub : GraphObject.deliver (GraphObject.subscribe o s events) ev
                 = GraphObject.deliver o ev
                   ++ (if GraphObject.listens ev events then [(s, ev)] else [])).
  { unfold GraphObject.deliver, GraphObject.subscribe. simpl.
    rewrite List.filter_app, map_app. simpl.
    destruct (GraphObject._observers o), (GraphObject.listens ev events); reflexivity. }
  assert (Hkeep : forall d : nat * GraphObject.Event,
            In d (GraphObject.deliver o ev) -> negb (Nat.eqb (fst d) s) = true).
  { intros [s0 ev0] Hd%EventFacts.deliver_listening.
    destruct Hd as (_ & observers & evs & Ho & Hin & _). simpl.
    apply negb_true_iff, Nat.eqb_neq. intros ->. apply Hfresh.
    unfold GraphObject.subscriptions. rewrite Ho.
    by apply (in_map fst observers (s, evs)). }
  split; [exact Hsub|]. split; [|split; [|split]].
  - rewrite KeyFacts.deliver_unsubscribe, Hsub, List.filter_app.
    transitivity (GraphObject.deliver o ev ++ []); [|apply app_nil_r].
    f_equal.
    + apply KeyFacts.filter_all. exact Hkeep.
    + destruct (GraphObject.listens ev events); simpl; [|reflexivity].
      by rewrite Nat.eqb_refl.
  - intros o' d. rewrite KeyFacts.deliver_unsubscribe.
    intros [_ Hd]%filter_In. by apply negb_true_iff, Nat.eqb_neq in Hd.
  - intros o' s' d Hne Hd. rewrite KeyFacts.deliver_unsubscribe, filter_In.
    split; [tauto|]. intros H. split; [assumption|].
    apply negb_true_iff, Nat.eqb_neq. intros Heq. apply Hne. by rewrite <- Hd.
  - intros o'. unfold GraphObject.unsubscribe.
    destruct (GraphObject._observers o') as [observers|] eqn:E; simpl; [|by rewrite E].
    unfold GraphObject.with_observers. simpl. f_equal. f_equal.
    apply KeyFacts.filter_all. intros x [_ Hx]%filter_In. exact Hx.
Qed.

Lemma subscribe_unsubscribe_witness :
  GraphObject.deliver
    (GraphObject.subscribe Examples.detached 1 (GraphObject.mkEvents false true))
    (GraphObject.PropertyChanged "count")
  = [(1%nat, GraphObject.PropertyChanged "count")].
Proof.
  destruct (subscribe_unsubscribe Examples.detached 1
              (GraphObject.mkEvents false true) (GraphObject.PropertyChanged "count"))
    as [H _]; [intros []|exact H].
Defined.

(** X15. [has] is true exactly when the object stores a value for the
    property or, the object having an owner, some category of the object
    or of its [basedOn] chains owns the property in its metadata for that
    owner; without owner [has] is [hasOwn]. When [has] is false, [get]
    returns the default of the property's metadata for the owner, and
    [undefined] without owner. *)
Theorem has_and_get (o : GraphObject.t) (P : GraphProperty.t) :
  GraphObject.has o (inr P)
    = GraphObject.hasOwn o (inr P)
      || match GraphObject.firstOwning o P with Some _ => true | None => false end
  /\ (GraphObject._owner o = None ->
      GraphObject.has o (inr P) = GraphObject.hasOwn o (inr P))
  /\ (GraphObject.has o (inr P) = false ->
      GraphObject.get o (inr P)
      = match GraphObject._owner o with
        | Some g => GraphMetadata.defaultValue (GraphProperty.getMetadata P (Graph.ref_ g))
        | None => undefined
        end).
Proof.
  assert (Hhas : GraphObject.has o (inr P)
                 = GraphObject.hasOwn o (inr P)
                   || match GraphObject.firstOwning o P with
                      | Some _ => true
                      | None => false
                      end).
  { unfold GraphObject.has. simpl. f_equal.
    rewrite GetFacts._find_firstOwning. unfold GraphObject.firstOwning.
    destruct (GraphObject._owner o) as [g|]; [|reflexivity].
    by destruct (find _ _). }
  split; [exact Hhas|]. split.
  - intros Ho. rewrite Hhas. unfold GraphObject.firstOwning. rewrite Ho.
    apply orb_false_r.
  - rewrite Hhas. intros [Hown Hcat]%orb_false_iff.
    rewrite GetFacts.get_unfold. unfold GraphObject.inheritedValue.
    rewrite GetFacts.hasOwn_entries in Hown.
    apply PropertyMapFacts.has_false_get in Hown.
    fold (GraphObject.ownValue o P) in Hown. rewrite Hown. simpl.
    rewrite GetFacts._find_firstOwning.
    destruct (GraphObject._owner o) as [g|]; [|reflexivity].
    destruct (GraphObject.firstOwning o P); [discriminate|reflexivity].
Qed.
